(** * Monty / Unitree simulation orchestrator: run lifecycle

    A shallow embedding of [backend/main.py]: the in-memory registries
    ([runs], [logs], [metrics], [active_connections], [log_counter]), the
    [SimulationOrchestrator] methods and the [cancel_run] route, followed by
    the properties of the run life cycle, of the Kubernetes job template and
    of the log stream.

    Modelling conventions.
    - The module-level dictionaries are finite maps keyed by strings; the
      list of WebSocket connections is a list of connection identities.
    - A [Run] object is shared between the local variable [run] and the
      entry [runs[run_id]]: an assignment [run.status = s] is an update of
      the registry entry under the run's id, and [return run] reads that
      entry back.
    - Calls to S3, Kubernetes, the WebSocket peers and the clock are answered
      by an environment [Env]; every call and every mutation of a run's
      status or log list is recorded in a trace of [Event]s.
    - Coroutines are run to completion, one request after the other. *)

From Stdlib Require Import ZArith QArith String Ascii List Sorted Decimal DecimalNat DecimalString.
From stdpp Require Import gmap strings list fin_maps.

Local Open Scope nat_scope.

(** ** Strings *)

(** [str(n)] for a non-negative Python integer. *)
Definition py_str (n : nat) : string := NilEmpty.string_of_uint (Nat.to_uint n).

Definition dq : string := String (ascii_of_nat 34) EmptyString.
Definition nl : string := String (ascii_of_nat 10) EmptyString.

Fixpoint spaces (n : nat) : string :=
  match n with
  | O => EmptyString
  | S k => String " "%char (spaces k)
  end.

(** [x or ""] on an optional string: [None] and the empty string are falsy. *)
Definition or_empty (o : option string) : string :=
  match o with
  | Some s => s
  | None => ""
  end.

(** ** Clock *)

Record datetime := mk_datetime
  { year : nat; month : nat; day : nat;
    hour : nat; minute : nat; second : nat; microsecond : nat }.

Fixpoint zeros (n : nat) : string :=
  match n with
  | O => EmptyString
  | S k => String "0"%char (zeros k)
  end.

Definition zero_pad (width n : nat) : string :=
  zeros (width - String.length (py_str n)) +:+ py_str n.

(** [d.strftime('%Y%m%d-%H%M%S')] *)
Definition strftime (d : datetime) : string :=
  zero_pad 4 (year d) +:+ zero_pad 2 (month d) +:+ zero_pad 2 (day d) +:+ "-" +:+
  zero_pad 2 (hour d) +:+ zero_pad 2 (minute d) +:+ zero_pad 2 (second d).

(** ** Enums and Pydantic models *)

Inductive RunStatus := PENDING | RUNNING | COMPLETED | FAILED | CANCELLED.

Inductive LogLevel := INFO | WARN | ERROR | DEBUG.

Global Instance RunStatus_eq_dec : EqDecision RunStatus.
Proof. solve_decision. Defined.

Global Instance LogLevel_eq_dec : EqDecision LogLevel.
Proof. solve_decision. Defined.

(** The string value of the enum member, as serialised. *)
Definition RunStatus_value (s : RunStatus) : string :=
  match s with
  | PENDING => "Pending"
  | RUNNING => "Running"
  | COMPLETED => "Completed"
  | FAILED => "Failed"
  | CANCELLED => "Cancelled"
  end.

Definition LogLevel_value (l : LogLevel) : string :=
  match l with
  | INFO => "Info"
  | WARN => "Warn"
  | ERROR => "Error"
  | DEBUG => "Debug"
  end.

Record DockerImage := mk_DockerImage
  { image_id : string; repo : string; tag : string; image_type : string }.

Record BrainProfile := mk_BrainProfile
  { profile_id : string; profile_name : string; config : string }.

Record Artifact := mk_Artifact
  { artifact_id : string; kind : string; s3_uri : string }.

Record Run := mk_Run
  { id : string;
    name : string;
    status : RunStatus;
    createdAt : datetime;
    montyImage : DockerImage;
    simulatorImage : DockerImage;
    brainProfile : BrainProfile;
    artifacts : list Artifact;
    glueCode : option string;
    checkpointIn : option string;
    checkpointOut : option string }.

Record LogEntry := mk_LogEntry
  { log_id : nat;
    runId : string;
    timestamp : datetime;
    level : LogLevel;
    message : string }.

Record MetricPoint := mk_MetricPoint
  { time : Q; reward : Q; energy : Q; nociceptor : Q }.

Record CreateRunRequest := mk_CreateRunRequest
  { req_name : string;
    req_montyImage : DockerImage;
    req_simulatorImage : DockerImage;
    req_brainProfile : BrainProfile;
    req_glueCode : string;
    req_checkpointIn : option string;
    activeDeadlineSeconds : Z }.

(** [run.status = s] on a run object. *)
Definition with_status (s : RunStatus) (r : Run) : Run :=
  {| id := id r; name := name r; status := s; createdAt := createdAt r;
     montyImage := montyImage r; simulatorImage := simulatorImage r;
     brainProfile := brainProfile r; artifacts := artifacts r;
     glueCode := glueCode r; checkpointIn := checkpointIn r;
     checkpointOut := checkpointOut r |}.

(** The same run with another [checkpointIn]. *)
Definition with_checkpointIn (c : option string) (r : Run) : Run :=
  {| id := id r; name := name r; status := status r; createdAt := createdAt r;
     montyImage := montyImage r; simulatorImage := simulatorImage r;
     brainProfile := brainProfile r; artifacts := artifacts r;
     glueCode := glueCode r; checkpointIn := c;
     checkpointOut := checkpointOut r |}.

(** ** Configuration read from the process environment at start-up *)

Record Config := mk_Config
  { NAMESPACE : string;
    S3_CHECKPOINTS_BUCKET : string;
    S3_ARTIFACTS_BUCKET : string;
    ECR_REGISTRY : string;
    AWS_REGION : string }.

(** The values used when no environment variable is set. *)
Definition default_config : Config :=
  {| NAMESPACE := "monty-sim";
     S3_CHECKPOINTS_BUCKET := "monty-checkpoints-dev";
     S3_ARTIFACTS_BUCKET := "sim-artifacts-dev";
     ECR_REGISTRY := "";
     AWS_REGION := "us-east-1" |}.

(** ** Nested dictionaries and lists: the shape of a job template *)

#[warnings="-register-all"]
Inductive json :=
| JStr (s : string)
| JInt (z : Z)
| JList (l : list json)
| JDict (l : list (string * json)).

Inductive selector := Key (k : string) | Idx (i : nat).

(** [d[k]] on a dictionary literal, kept as an association list in source
    order. *)
Fixpoint assoc_get (k : string) (l : list (string * json)) : option json :=
  match l with
  | [] => None
  | (k', v) :: l' => if String.eqb k k' then Some v else assoc_get k l'
  end.

Fixpoint assoc_alter (f : json -> json) (k : string) (l : list (string * json))
  : list (string * json) :=
  match l with
  | [] => []
  | (k', v) :: l' =>
      if String.eqb k k' then (k', f v) :: l' else (k', v) :: assoc_alter f k l'
  end.

(** Follow a path of keys and indices into a value. *)
Fixpoint json_get (p : list selector) (j : json) : option json :=
  match p with
  | [] => Some j
  | Key k :: p' =>
      match j with
      | JDict l => match assoc_get k l with Some v => json_get p' v | None => None end
      | _ => None
      end
  | Idx i :: p' =>
      match j with
      | JList l => match l !! i with Some v => json_get p' v | None => None end
      | _ => None
      end
  end.

(** Rewrite the value found at a path, leaving everything else in place. *)
Fixpoint json_alter (f : json -> json) (p : list selector) (j : json) : json :=
  match p with
  | [] => f j
  | Key k :: p' =>
      match j with
      | JDict l => JDict (assoc_alter (json_alter f p') k l)
      | _ => j
      end
  | Idx i :: p' =>
      match j with
      | JList l => JList (alter (json_alter f p') i l)
      | _ => j
      end
  end.

Definition json_set (p : list selector) (v : json) (j : json) : json :=
  json_alter (fun _ => v) p j.

(** Two paths part ways: at some depth they select different members. *)
Fixpoint diverge (p q : list selector) : Prop :=
  match p, q with
  | Key a :: p', Key b :: q' => a <> b \/ (a = b /\ diverge p' q')
  | Idx a :: p', Idx b :: q' => a <> b \/ (a = b /\ diverge p' q')
  | Key _ :: _, Idx _ :: _ => True
  | Idx _ :: _, Key _ :: _ => True
  | _, _ => False
  end.

(** ** The Kubernetes job template *)

Definition env_var (n v : string) : json :=
  JDict [("name", JStr n); ("value", JStr v)].

Definition volume_mount (n path : string) : json :=
  JDict [("name", JStr n); ("mountPath", JStr path)].

Definition empty_dir (n : string) : json :=
  JDict [("name", JStr n); ("emptyDir", JDict [])].

Section JobTemplate.

Variable cfg : Config.

Definition s3_glue_prefix (run : Run) : string :=
  "s3://" +:+ S3_ARTIFACTS_BUCKET cfg +:+ "/glue/" +:+ id run.

Definition s3_artifacts_prefix (run : Run) : string :=
  "s3://" +:+ S3_ARTIFACTS_BUCKET cfg +:+ "/runs/" +:+ id run +:+ "/artifacts".

Definition s3_checkpoint_in (run : Run) : string := or_empty (checkpointIn run).

Definition s3_checkpoint_out (run : Run) : string :=
  "s3://" +:+ S3_CHECKPOINTS_BUCKET cfg +:+ "/checkpoints/" +:+ id run +:+ "/out.mstate".

(** The shell script given to the artifact-uploader container. *)
Definition uploader_script (run : Run) : string :=
  nl +:+
  spaces 36 +:+ "set -e" +:+ nl +:+
  spaces 36 +:+ "echo " +:+ dq +:+ "Uploading artifacts..." +:+ dq +:+ nl +:+
  spaces 36 +:+ "aws s3 sync /artifacts " +:+ s3_artifacts_prefix run +:+
    " --only-show-errors" +:+ nl +:+
  spaces 36 +:+ "if [ -f /checkpoints/out.mstate ]; then" +:+ nl +:+
  spaces 40 +:+ "aws s3 cp /checkpoints/out.mstate " +:+ s3_checkpoint_out run +:+
    " --only-show-errors" +:+ nl +:+
  spaces 36 +:+ "fi" +:+ nl +:+
  spaces 36 +:+ "echo " +:+ dq +:+ "Done." +:+ dq +:+ nl +:+
  spaces 36.

Definition _prepare_job_template (run : Run) (active_deadline_seconds : Z) : json :=
  let monty_image :=
    ECR_REGISTRY cfg +:+ "/" +:+ repo (montyImage run) +:+ ":" +:+ tag (montyImage run) in
  let sim_image :=
    ECR_REGISTRY cfg +:+ "/" +:+ repo (simulatorImage run) +:+ ":" +:+
    tag (simulatorImage run) in
  let glue_image := ECR_REGISTRY cfg +:+ "/glue-base:py310" in
  JDict [
    ("apiVersion", JStr "batch/v1");
    ("kind", JStr "Job");
    ("metadata", JDict [
      ("name", JStr ("sim-run-" +:+ id run));
      ("namespace", JStr (NAMESPACE cfg));
      ("labels", JDict [
        ("app", JStr "sim-run");
        ("run-id", JStr (id run));
        ("user", JStr "default");
        ("profile", JStr (profile_id (brainProfile run)))])]);
    ("spec", JDict [
      ("ttlSecondsAfterFinished", JInt 600);
      ("activeDeadlineSeconds", JInt active_deadline_seconds);
      ("backoffLimit", JInt 0);
      ("template", JDict [
        ("metadata", JDict [
          ("labels", JDict [
            ("app", JStr "sim-run");
            ("run-id", JStr (id run))])]);
        ("spec", JDict [
          ("restartPolicy", JStr "Never");
          ("serviceAccountName", JStr "sim-runner");
          ("nodeSelector", JDict [("role", JStr "gpu")]);
          ("tolerations", JList [
            JDict [
              ("key", JStr "nvidia.com/gpu");
              ("operator", JStr "Equal");
              ("value", JStr "present");
              ("effect", JStr "NoSchedule")]]);
          ("containers", JList [
            JDict [
              ("name", JStr "unitree-sim");
              ("image", JStr sim_image);
              ("imagePullPolicy", JStr "IfNotPresent");
              ("resources", JDict [("limits", JDict [("nvidia.com/gpu", JInt 1)])]);
              ("env", JList [env_var "DT" "0.005"; env_var "WEBRTC" "true"]);
              ("ports", JList [
                JDict [
                  ("name", JStr "webrtc");
                  ("containerPort", JInt 8554);
                  ("protocol", JStr "TCP")]]);
              ("volumeMounts", JList [
                volume_mount "ckpt" "/checkpoints";
                volume_mount "artifacts" "/artifacts";
                volume_mount "glue" "/glue"])];
            JDict [
              ("name", JStr "monty");
              ("image", JStr monty_image);
              ("env", JList [
                env_var "CHECKPOINT_IN" (s3_checkpoint_in run);
                env_var "CHECKPOINT_OUT" "/checkpoints/out.mstate";
                env_var "MONTY_CONFIG" "/glue/monty.yaml";
                env_var "DT" "0.005"]);
              ("volumeMounts", JList [
                volume_mount "ckpt" "/checkpoints";
                volume_mount "artifacts" "/artifacts";
                volume_mount "glue" "/glue"])];
            JDict [
              ("name", JStr "glue");
              ("image", JStr glue_image);
              ("command", JList [JStr "python"; JStr "/glue/run.py"]);
              ("env", JList [
                env_var "DT" "0.005";
                env_var "OBS_SCHEMA_PATH" "/glue/observation.schema.json";
                env_var "ACT_SCHEMA_PATH" "/glue/action.schema.json"]);
              ("volumeMounts", JList [
                volume_mount "ckpt" "/checkpoints";
                volume_mount "artifacts" "/artifacts";
                volume_mount "glue" "/glue"])];
            JDict [
              ("name", JStr "artifact-uploader");
              ("image", JStr "public.ecr.aws/aws-cli/aws-cli:latest");
              ("command", JList [JStr "/bin/sh"; JStr "-lc"; JStr (uploader_script run)]);
              ("volumeMounts", JList [
                volume_mount "ckpt" "/checkpoints";
                volume_mount "artifacts" "/artifacts"])]]);
          ("volumes", JList [empty_dir "ckpt"; empty_dir "artifacts"; empty_dir "glue"])])])])].

End JobTemplate.

(** *** Reading a template the way the scheduler does *)

Definition json_str (j : json) : option string :=
  match j with
  | JStr s => Some s
  | _ => None
  end.

(** The first member of a list of dictionaries whose ["name"] is [n]. *)
Fixpoint find_named (n : string) (l : list json) : option json :=
  match l with
  | [] => None
  | j :: l' =>
      match json_get [Key "name"] j with
      | Some (JStr m) => if String.eqb m n then Some j else find_named n l'
      | _ => find_named n l'
      end
  end.

Definition containers_path : list selector :=
  [Key "spec"; Key "template"; Key "spec"; Key "containers"].

Definition container (n : string) (job : json) : option json :=
  match json_get containers_path job with
  | Some (JList l) => find_named n l
  | _ => None
  end.

(** The value of environment variable [v] of container [c]. *)
Definition container_env (c v : string) (job : json) : option string :=
  match container c job with
  | Some cj =>
      match json_get [Key "env"] cj with
      | Some (JList l) =>
          match find_named v l with
          | Some e => match json_get [Key "value"] e with Some x => json_str x | None => None end
          | None => None
          end
      | _ => None
      end
  | None => None
  end.

(** Where the monty container's [CHECKPOINT_IN] value sits in the template. *)
Definition checkpoint_in_path : list selector :=
  containers_path ++ [Idx 1; Key "env"; Idx 0; Key "value"].

(** *** A sample run *)

Definition sample_id : string := "run-1-20240101-000000".

Definition sample_run : Run :=
  {| id := sample_id; name := "demo"; status := PENDING;
     createdAt := mk_datetime 2024 1 1 0 0 0 0;
     montyImage := mk_DockerImage "m1" "monty" "latest" "monty";
     simulatorImage := mk_DockerImage "s1" "unitree-sim" "isaac-5.0" "simulator";
     brainProfile := mk_BrainProfile "bp1" "Small (Fast)" "size: small";
     artifacts := []; glueCode := Some "print(1)"; checkpointIn := None;
     checkpointOut := None |}.

(** ** Process state, environment and effects *)

(** A WebSocket connection object, by identity. *)
Definition WebSocket := nat.

(** The module-level registries. *)
Record Store := mk_Store
  { runs : gmap string Run;
    logs : gmap string (list LogEntry);
    metrics : gmap string (list MetricPoint);
    active_connections : list WebSocket;
    log_counter : nat }.

Definition initial_store : Store :=
  {| runs := ∅; logs := ∅; metrics := ∅; active_connections := []; log_counter := 0 |}.

Definition set_runs (f : gmap string Run -> gmap string Run) (st : Store) : Store :=
  {| runs := f (runs st); logs := logs st; metrics := metrics st;
     active_connections := active_connections st; log_counter := log_counter st |}.

Definition set_logs (f : gmap string (list LogEntry) -> gmap string (list LogEntry))
  (st : Store) : Store :=
  {| runs := runs st; logs := f (logs st); metrics := metrics st;
     active_connections := active_connections st; log_counter := log_counter st |}.

Definition set_metrics (f : gmap string (list MetricPoint) -> gmap string (list MetricPoint))
  (st : Store) : Store :=
  {| runs := runs st; logs := logs st; metrics := f (metrics st);
     active_connections := active_connections st; log_counter := log_counter st |}.

Definition set_active_connections (f : list WebSocket -> list WebSocket) (st : Store) : Store :=
  {| runs := runs st; logs := logs st; metrics := metrics st;
     active_connections := f (active_connections st); log_counter := log_counter st |}.

Definition set_log_counter (f : nat -> nat) (st : Store) : Store :=
  {| runs := runs st; logs := logs st; metrics := metrics st;
     active_connections := active_connections st; log_counter := f (log_counter st) |}.

(** The text of an exception raised by a client library. *)
Record ClientError := mk_ClientError { client_error_text : string }.
Record ApiException := mk_ApiException { api_exception_text : string }.

(** What the submission of a job may raise: the [ApiException] of the
    Kubernetes client, which [_create_k8s_job] catches, or an exception of
    another class (a connection error of the HTTP layer, say), which it does
    not. *)
Inductive SubmissionRaised :=
| RaisedApiException (e : ApiException)
| RaisedOther (text : string).

(** What the outside world answers during one request. [None] from a client
    call means that it returned normally; [send_text] is [false] when the
    send raises. Every reading of the clock has an answer of its own. For
    [put_object] and [delete_namespaced_job] the exception is the one that
    the calling handler catches. *)
Record Env := mk_Env
  { now_run_id : datetime;
    now_created_at : datetime;
    now_log : nat -> datetime;
    put_object : string -> string -> string -> option ClientError;
    create_namespaced_job : string -> json -> option SubmissionRaised;
    delete_namespaced_job : string -> string -> option ApiException;
    send_text : WebSocket -> LogEntry -> bool }.

(** Calls that leave the process, and the writes to a run's status and to a
    log list, in the order in which they happen. *)
Inductive Event :=
| EvPutObject (bucket key body : string)
| EvCreateJob (namespace : string) (body : json)
| EvDeleteJob (job_name namespace : string)
| EvSendText (ws : WebSocket) (entry : LogEntry) (delivered : bool)
| EvStatus (run_id : string) (old new : RunStatus)
| EvLogAppend (entry : LogEntry).

(** What leaves a handler: an [HTTPException] that it raises, or an exception
    that it does not catch. *)
Inductive Exn :=
| HTTPException (status_code : nat) (detail : string)
| Uncaught (text : string).

(** Computations over the store that may raise and that leave a trace. *)
Definition M (A : Type) : Type := Store -> (Exn + A) * Store * list Event.

Definition ret {A} (a : A) : M A := fun st => (inr a, st, []).

Definition raise {A} (e : Exn) : M A := fun st => (inl e, st, []).

Definition bind {A B} (m : M A) (k : A -> M B) : M B :=
  fun st =>
    match m st with
    | (inl e, st1, t1) => (inl e, st1, t1)
    | (inr a, st1, t1) =>
        match k a st1 with
        | (r, st2, t2) => (r, st2, t1 ++ t2)
        end
    end.

Definition get_store : M Store := fun st => (inr st, st, []).

Definition modify (f : Store -> Store) : M unit := fun st => (inr tt, f st, []).

Definition emit (e : Event) : M unit := fun st => (inr tt, st, [e]).

Notation "x <~ c1 ;; c2" := (bind c1 (fun x => c2))
  (at level 100, c1 at next level, right associativity).
Notation "c1 ;;; c2" := (bind c1 (fun _ => c2))
  (at level 100, right associativity).

Definition result_of {A} (o : (Exn + A) * Store * list Event) : Exn + A := fst (fst o).
Definition store_of {A} (o : (Exn + A) * Store * list Event) : Store := snd (fst o).
Definition trace_of {A} (o : (Exn + A) * Store * list Event) : list Event := snd o.

(** [l.remove(x)]: drop the first member equal to [x]. *)
Fixpoint remove_first (x : WebSocket) (l : list WebSocket) : list WebSocket :=
  match l with
  | [] => []
  | y :: l' => if Nat.eqb x y then l' else y :: remove_first x l'
  end.

(** ** SimulationOrchestrator *)

Section Orchestrator.

Variable cfg : Config.
Variable env : Env.

(** The [for connection in active_connections] loop. The list iterator
    holds an index into the live list: it stops when the index reaches the
    current length, and a removal in the loop body shifts the members
    behind it. [fuel] bounds the number of iterations. *)
Fixpoint broadcast_loop (entry : LogEntry) (fuel i : nat) (conns : list WebSocket)
  : list WebSocket * list Event :=
  match fuel with
  | O => (conns, [])
  | S fuel' =>
      match conns !! i with
      | None => (conns, [])
      | Some connection =>
          if send_text env connection entry then
            match broadcast_loop entry fuel' (S i) conns with
            | (conns', t) => (conns', EvSendText connection entry true :: t)
            end
          else
            match broadcast_loop entry fuel' (S i) (remove_first connection conns) with
            | (conns', t) => (conns', EvSendText connection entry false :: t)
            end
      end
  end.

Definition _broadcast_log (log_entry : LogEntry) : M unit :=
  fun st =>
    let r := broadcast_loop log_entry (length (active_connections st)) 0
               (active_connections st) in
    (inr tt, set_active_connections (fun _ => fst r) st, snd r).

Definition _add_log (run_id : string) (lvl : LogLevel) (msg : string) : M unit :=
  st <~ get_store ;;
  let log_entry :=
    {| log_id := log_counter st; runId := run_id;
       timestamp := now_log env (log_counter st); level := lvl; message := msg |} in
  modify (set_logs (fun l => <[run_id := default [] (l !! run_id) ++ [log_entry]]> l)) ;;;
  emit (EvLogAppend log_entry) ;;;
  modify (set_log_counter S) ;;;
  _broadcast_log log_entry.

Definition _upload_glue_code (run_id glue_code : string) : M unit :=
  let key := "glue/" +:+ run_id +:+ "/run.py" in
  emit (EvPutObject (S3_ARTIFACTS_BUCKET cfg) key glue_code) ;;;
  match put_object env (S3_ARTIFACTS_BUCKET cfg) key glue_code with
  | None => ret tt
  | Some e => raise (HTTPException 500 "Failed to upload glue code")
  end.

(** [run.status = s]: the object is the registry entry under its id. *)
Definition set_status (run : Run) (s : RunStatus) : M unit :=
  modify (set_runs (fun m => <[id run := with_status s run]> m)) ;;;
  emit (EvStatus (id run) (status run) s).

(** The current state of the object that [run] names. *)
Definition deref (run : Run) : M Run :=
  st <~ get_store ;; ret (default run (runs st !! id run)).

Definition _create_k8s_job (run : Run) (active_deadline_seconds : Z) : M unit :=
  let job_template := _prepare_job_template cfg run active_deadline_seconds in
  emit (EvCreateJob (NAMESPACE cfg) job_template) ;;;
  match create_namespaced_job env (NAMESPACE cfg) job_template with
  | None =>
      set_status run RUNNING ;;;
      _add_log (id run) INFO "Kubernetes job created and started"
  | Some (RaisedApiException e) =>
      set_status run FAILED ;;;
      _add_log (id run) ERROR
        ("Failed to create Kubernetes job: " +:+ api_exception_text e) ;;;
      raise (HTTPException 500 "Failed to create simulation job")
  | Some (RaisedOther text) => raise (Uncaught text)
  end.

(** The id that [create_run] gives to the next run. *)
Definition next_run_id (st : Store) : string :=
  "run-" +:+ py_str (size (runs st) + 1) +:+ "-" +:+ strftime (now_run_id env).

Definition new_run (run_id : string) (request : CreateRunRequest) : Run :=
  {| id := run_id;
     name := req_name request;
     status := PENDING;
     createdAt := now_created_at env;
     montyImage := req_montyImage request;
     simulatorImage := req_simulatorImage request;
     brainProfile := req_brainProfile request;
     artifacts := [];
     glueCode := Some (req_glueCode request);
     checkpointIn := req_checkpointIn request;
     checkpointOut := None |}.

Definition create_run (request : CreateRunRequest) : M Run :=
  st <~ get_store ;;
  let run_id := next_run_id st in
  let run := new_run run_id request in
  modify (set_runs (fun m => <[run_id := run]> m)) ;;;
  modify (set_logs (fun m => <[run_id := []]> m)) ;;;
  modify (set_metrics (fun m => <[run_id := []]> m)) ;;;
  _upload_glue_code run_id (req_glueCode request) ;;;
  _create_k8s_job run (activeDeadlineSeconds request) ;;;
  _add_log run_id INFO ("Run " +:+ name run +:+ " created and queued") ;;;
  deref run.

(** *** Routes *)

(** [list(runs.values())]; the order of the list is that of the map, not the
    order of insertion. *)
Definition get_runs : M (list Run) :=
  st <~ get_store ;; ret ((map_to_list (runs st)).*2).

Definition get_run (run_id : string) : M Run :=
  st <~ get_store ;;
  match runs st !! run_id with
  | None => raise (HTTPException 404 "Run not found")
  | Some run => ret run
  end.

Definition get_run_logs (run_id : string) : M (list LogEntry) :=
  st <~ get_store ;;
  match runs st !! run_id with
  | None => raise (HTTPException 404 "Run not found")
  | Some _ => ret (default [] (logs st !! run_id))
  end.

Definition get_run_metrics (run_id : string) : M (list MetricPoint) :=
st <~ get_store ;;
match runs st !! run_id with
| None => raise (HTTPException 404 "Run not found")
| Some _ => ret (default [] (metrics st !! run_id))
end.

Definition cancellable (s : RunStatus) : bool :=
  bool_decide (s ∈ [PENDING; RUNNING]).

Definition cancel_run (run_id : string) : M string :=
  st <~ get_store ;;
  match runs st !! run_id with
  | None => raise (HTTPException 404 "Run not found")
  | Some run =>
      if negb (cancellable (status run)) then
        raise (HTTPException 400 "Run cannot be cancelled")
      else
        emit (EvDeleteJob ("sim-run-" +:+ run_id) (NAMESPACE cfg)) ;;;
        match delete_namespaced_job env ("sim-run-" +:+ run_id) (NAMESPACE cfg) with
        | None =>
            set_status run CANCELLED ;;;
            _add_log run_id INFO "Run cancelled by user" ;;;
            ret "Run cancelled successfully"
        | Some e => raise (HTTPException 500 "Failed to cancel run")
        end
  end.

(** [websocket_endpoint]: a peer connects, and later disconnects. A
    disconnect of a connection that a broadcast has already removed raises
    out of the handler and changes nothing. *)
Definition websocket_connect (ws : WebSocket) : M unit :=
  modify (set_active_connections (fun l => l ++ [ws])).

Definition websocket_disconnect (ws : WebSocket) : M unit :=
  modify (set_active_connections (remove_first ws)).

End Orchestrator.

(** ** Requests served one after the other *)

Inductive Request :=
| CreateRun (request : CreateRunRequest)
| CancelRun (run_id : string)
| Connect (ws : WebSocket)
| Disconnect (ws : WebSocket).

Inductive Response :=
| RunCreated (run : Run)
| RunCancelled (msg : string)
| NoContent.

Definition handle (cfg : Config) (env : Env) (rq : Request) : M Response :=
  match rq with
  | CreateRun request => run <~ create_run cfg env request ;; ret (RunCreated run)
  | CancelRun run_id => msg <~ cancel_run cfg env run_id ;; ret (RunCancelled msg)
  | Connect ws => websocket_connect ws ;;; ret NoContent
  | Disconnect ws => websocket_disconnect ws ;;; ret NoContent
  end.

(** The store, the responses and the trace after serving [rqs] in order, each
    request in the environment that comes with it. A request that raises
    leaves the store as it was when the exception left the handler. *)
Fixpoint serve (cfg : Config) (rqs : list (Env * Request)) (st : Store)
  : Store * list (Exn + Response) * list Event :=
  match rqs with
  | [] => (st, [], [])
  | (env, rq) :: rqs' =>
      match handle cfg env rq st with
      | (r, st1, t1) =>
          match serve cfg rqs' st1 with
          | (st2, rs, t2) => (st2, r :: rs, t1 ++ t2)
          end
      end
  end.

Definition final_store (cfg : Config) (rqs : list (Env * Request)) : Store :=
  fst (fst (serve cfg rqs initial_store)).

Definition responses (cfg : Config) (rqs : list (Env * Request)) : list (Exn + Response) :=
  snd (fst (serve cfg rqs initial_store)).

Definition full_trace (cfg : Config) (rqs : list (Env * Request)) : list Event :=
  snd (serve cfg rqs initial_store).

(** *** Sample inputs *)

Definition sample_time : datetime := mk_datetime 2024 1 1 0 0 0 0.

Definition sample_request : CreateRunRequest :=
  {| req_name := "demo";
     req_montyImage := mk_DockerImage "m1" "monty" "latest" "monty";
     req_simulatorImage := mk_DockerImage "s1" "unitree-sim" "isaac-5.0" "simulator";
     req_brainProfile := mk_BrainProfile "bp1" "Small (Fast)" "size: small";
     req_glueCode := "print(1)";
     req_checkpointIn := None;
     activeDeadlineSeconds := 3600 |}.

(** Every outside call succeeds. *)
Definition env_ok : Env :=
  {| now_run_id := sample_time; now_created_at := sample_time;
     now_log := fun _ => sample_time;
     put_object := fun _ _ _ => None;
     create_namespaced_job := fun _ _ => None;
     delete_namespaced_job := fun _ _ => None;
     send_text := fun _ _ => true |}.

(** The upload to S3 raises. *)
Definition env_s3_down : Env :=
  {| now_run_id := sample_time; now_created_at := sample_time;
     now_log := fun _ => sample_time;
     put_object := fun _ _ _ => Some (mk_ClientError "AccessDenied");
     create_namespaced_job := fun _ _ => None;
     delete_namespaced_job := fun _ _ => None;
     send_text := fun _ _ => true |}.

(** The Kubernetes API raises on every call. *)
Definition env_k8s_down : Env :=
  {| now_run_id := sample_time; now_created_at := sample_time;
     now_log := fun _ => sample_time;
     put_object := fun _ _ _ => None;
     create_namespaced_job :=
       fun _ _ => Some (RaisedApiException (mk_ApiException "(403) Forbidden"));
     delete_namespaced_job := fun _ _ => Some (mk_ApiException "(403) Forbidden");
     send_text := fun _ _ => true |}.


(** The peer behind connection 1 is gone: sending to it raises. *)
Definition env_peer1_gone : Env :=
  {| now_run_id := sample_time; now_created_at := sample_time;
     now_log := fun _ => sample_time;
     put_object := fun _ _ _ => None;
     create_namespaced_job := fun _ _ => None;
     delete_namespaced_job := fun _ _ => None;
     send_text := fun ws _ => negb (Nat.eqb ws 1) |}.

Definition status_of (st : Store) (run_id : string) : option RunStatus :=
  status <$> runs st !! run_id.


(** ** Vocabulary of the properties *)

(** The locator of the checkpoint written by a run, in the words of the
    design: checkpoint bucket, run identity, extension. *)
Definition checkpoint_out_locator (cfg : Config) (run : Run) (ext : string) : string :=
  S3_CHECKPOINTS_BUCKET cfg +:+ "/checkpoints/" +:+ id run +:+ "/out." +:+ ext.

(** The text of the two commands of the uploader's script. *)
Definition aws_s3_sync (src dst : string) : string :=
  "aws s3 sync " +:+ src +:+ " " +:+ dst +:+ " --only-show-errors".

Definition aws_s3_cp (src dst : string) : string :=
  "aws s3 cp " +:+ src +:+ " " +:+ dst +:+ " --only-show-errors".

(** The command line of a container. *)
Definition container_command (c : string) (job : json) : option json :=
  match container c job with
  | Some cj => json_get [Key "command"] cj
  | None => None
  end.

(** The third member of the artifact-uploader's command line. *)
Definition uploader_command_script (job : json) : option string :=
  match container "artifact-uploader" job with
  | Some cj =>
      match json_get [Key "command"; Idx 2] cj with
      | Some x => json_str x
      | None => None
      end
  | None => None
  end.

(** The status edges that the design names. *)
Definition spec_edge (a b : RunStatus) : bool :=
  match a, b with
  | PENDING, RUNNING => true
  | PENDING, FAILED => true
  | RUNNING, COMPLETED => true
  | RUNNING, FAILED => true
  | RUNNING, CANCELLED => true
  | _, _ => false
  end.

(** The same edges, and the one that the guard of [cancel_run] adds: a
    pending run may be cancelled. *)
Definition lifecycle_edge (a b : RunStatus) : bool :=
  match a, b with
  | PENDING, CANCELLED => true
  | _, _ => spec_edge a b
  end.

Definition terminal (s : RunStatus) : bool :=
  bool_decide (s ∈ [COMPLETED; FAILED; CANCELLED]).

(** The writes to a run's status found in a trace: run id, old and new value. *)
Definition status_writes (t : list Event) : list (string * RunStatus * RunStatus) :=
  omap (fun e => match e with EvStatus r a b => Some (r, a, b) | _ => None end) t.

(** The log entries appended, in the order of the appends. *)
Definition appended (t : list Event) : list LogEntry :=
  omap (fun e => match e with EvLogAppend x => Some x | _ => None end) t.

(** The calls made to the scheduler. *)
Definition scheduler_calls (t : list Event) : list Event :=
  omap (fun e =>
          match e with
          | EvCreateJob _ _ | EvDeleteJob _ _ => Some e
          | _ => None
          end) t.

(** The connections that a send reached, with the entry sent. *)
Definition deliveries (t : list Event) : list (WebSocket * LogEntry) :=
  omap (fun e => match e with EvSendText ws x true => Some (ws, x) | _ => None end) t.

(** The ids of the runs handed back by the [create_run] calls that returned. *)
Definition created_ids (rs : list (Exn + Response)) : list string :=
  omap (fun r => match r with inr (RunCreated run) => Some (id run) | _ => None end) rs.

Definition run_key (n : nat) (ts : string) : string :=
  "run-" +:+ py_str n +:+ "-" +:+ ts.

(** The log list of a run, empty when the run has none. *)
Definition log_of (st : Store) (run_id : string) : list LogEntry :=
  default [] (logs st !! run_id).

(** The answers of the environment to the two outside calls of
    [create_run] in store [st]. *)
Definition upload_answer (cfg : Config) (env : Env) (st : Store) (request : CreateRunRequest)
  : option ClientError :=
  put_object env (S3_ARTIFACTS_BUCKET cfg)
    ("glue/" +:+ next_run_id env st +:+ "/run.py") (req_glueCode request).

Definition submission_answer (cfg : Config) (env : Env) (st : Store)
  (request : CreateRunRequest) : option SubmissionRaised :=
  create_namespaced_job env (NAMESPACE cfg)
    (_prepare_job_template cfg (new_run env (next_run_id env st) request)
       (activeDeadlineSeconds request)).

(** What every store produced by the handlers satisfies: the keys of [runs]
    are numbered up to its size, each run is filed under its own id, only
    registered runs have a log list, and the log lists hold the entries
    [la] appended so far, whose ids are [0 .. log_counter - 1]. *)
Record store_inv (st : Store) (la : list LogEntry) : Prop := mk_store_inv
  { inv_keys : forall k, is_Some (runs st !! k) ->
                 exists n ts, k = run_key n ts /\ 1 <= n <= size (runs st);
    inv_ids : forall k r, runs st !! k = Some r -> id r = k;
    inv_logs_dom : forall k, is_Some (logs st !! k) -> is_Some (runs st !! k);
    inv_logs : forall k, log_of st k = filter (fun e => runId e = k) la;
    inv_counter : log_id <$> la = seq 0 (log_counter st) }.

(** A trace made of sends only. *)
Definition sends_only (t : list Event) : Prop :=
  forall e, e ∈ t -> exists ws x ok, e = EvSendText ws x ok.

(** A string without the character that separates the parts of a run id. *)
Fixpoint no_dash (s : string) : Prop :=
  match s with
  | EmptyString => True
  | String c s' => c <> "-"%char /\ no_dash s'
  end.

(** *** Stores and events met along the handlers *)

Section Outcomes.

Variable cfg : Config.
Variable env : Env.

(** The entry that [_add_log] builds in store [st]. *)
Definition log_entry_at (st : Store) (run_id : string) (lvl : LogLevel) (msg : string)
  : LogEntry :=
  {| log_id := log_counter st; runId := run_id;
     timestamp := now_log env (log_counter st); level := lvl; message := msg |}.

(** The store once [create_run] has filed the new run. *)
Definition registered (st : Store) (request : CreateRunRequest) : Store :=
  let run_id := next_run_id env st in
  {| runs := <[run_id := new_run env run_id request]> (runs st);
     logs := <[run_id := []]> (logs st);
     metrics := <[run_id := []]> (metrics st);
     active_connections := active_connections st;
     log_counter := log_counter st |}.

Definition put_event (st : Store) (request : CreateRunRequest) : Event :=
  EvPutObject (S3_ARTIFACTS_BUCKET cfg)
    ("glue/" +:+ next_run_id env st +:+ "/run.py") (req_glueCode request).

Definition job_event (st : Store) (request : CreateRunRequest) : Event :=
  EvCreateJob (NAMESPACE cfg)
    (_prepare_job_template cfg (new_run env (next_run_id env st) request)
       (activeDeadlineSeconds request)).

Definition delete_event (run_id : string) : Event :=
  EvDeleteJob ("sim-run-" +:+ run_id) (NAMESPACE cfg).

(** The store once [run.status = s] has been executed. *)
Definition status_set (run : Run) (s : RunStatus) (st : Store) : Store :=
  set_runs (fun m => <[id run := with_status s run]> m) st.

Definition failure_message (e : ApiException) : string :=
  "Failed to create Kubernetes job: " +:+ api_exception_text e.

Definition queued_message (request : CreateRunRequest) : string :=
  "Run " +:+ req_name request +:+ " created and queued".

End Outcomes.

(** *** Sample scenarios *)

(** A create whose upload fails, then the cancellation of the run that it
    left behind. *)
Definition upload_fails_then_cancel : list (Env * Request) :=
  [(env_s3_down, CreateRun sample_request); (env_ok, CancelRun sample_id)].

(** A store whose only run has completed. *)
Definition completed_store : Store :=
  {| runs := {[ sample_id := with_status COMPLETED sample_run ]};
     logs := {[ sample_id := [] ]};
     metrics := {[ sample_id := [] ]};
     active_connections := [];
     log_counter := 0 |}.

(** Two observers connect; the peer of the first then goes away, and a run
    is created. *)
Definition two_observers : list (Env * Request) :=
  [(env_ok, Connect 1); (env_ok, Connect 2)].

Definition two_observers_then_create : list (Env * Request) :=
  two_observers ++ [(env_peer1_gone, CreateRun sample_request)].

Definition sample_entry : LogEntry :=
  {| log_id := 0; runId := sample_id; timestamp := sample_time; level := INFO;
     message := "Kubernetes job created and started" |}.

(** *** Further vocabulary: templates, broadcasts, registries *)

Definition json_list (j : json) : list json :=
  match j with
  | JList l => l
  | _ => []
  end.

(** The ["name"] members of a list of dictionaries. *)
Definition names_of (l : list json) : list string :=
  omap (fun j => match json_get [Key "name"] j with
                 | Some (JStr n) => Some n
                 | _ => None
                 end) l.

Definition job_containers (job : json) : list json :=
  json_list (default (JList []) (json_get containers_path job)).

Definition container_names (job : json) : list string := names_of (job_containers job).

Definition volume_names (job : json) : list string :=
  names_of (json_list (default (JList [])
              (json_get [Key "spec"; Key "template"; Key "spec"; Key "volumes"] job))).

(** The volumes that the containers of a job mount, container by container. *)
Definition mount_names (job : json) : list string :=
  concat ((fun c => names_of (json_list (default (JList []) (json_get [Key "volumeMounts"] c))))
            <$> job_containers job).

(** The name and the namespace under which a job is submitted. *)
Definition job_name (job : json) : option string :=
  match json_get [Key "metadata"; Key "name"] job with
  | Some x => json_str x
  | None => None
  end.

Definition job_namespace (job : json) : option string :=
  match json_get [Key "metadata"; Key "namespace"] job with
  | Some x => json_str x
  | None => None
  end.

(** What the broadcast loop comes to on a list of distinct connections: the
    connections are tried in order, a connection whose send raises is dropped,
    and the connection behind it is kept without being tried. The first
    component is the list of connections left, the second the sends made. *)
Fixpoint sweep (env : Env) (entry : LogEntry) (l : list WebSocket)
  : list WebSocket * list Event :=
  match l with
  | [] => ([], [])
  | c :: l' =>
      if send_text env c entry then
        (c :: fst (sweep env entry l'), EvSendText c entry true :: snd (sweep env entry l'))
      else
        match l' with
        | [] => ([], [EvSendText c entry false])
        | x :: l'' =>
            (x :: fst (sweep env entry l''),
             EvSendText c entry false :: snd (sweep env entry l''))
        end
  end.

(** The connections that a send was tried on. *)
Definition tried (t : list Event) : list WebSocket :=
  omap (fun e => match e with EvSendText ws _ _ => Some ws | _ => None end) t.

(** The number of [create_run] requests in a sequence. *)
Fixpoint count_creates (rqs : list (Env * Request)) : nat :=
  match rqs with
  | [] => 0
  | (_, CreateRun _) :: rqs' => S (count_creates rqs')
  | _ :: rqs' => count_creates rqs'
  end.

(** The levels of the entries that a run of a given status has in its log
    list. *)
Definition status_levels (s : RunStatus) (lv : list LogLevel) : bool :=
  match s with
  | PENDING => bool_decide (lv = [])
  | RUNNING => bool_decide (lv = [INFO; INFO])
  | FAILED => bool_decide (lv = [ERROR])
  | CANCELLED => bool_decide (lv = [INFO]) || bool_decide (lv = [INFO; INFO; INFO])
  | COMPLETED => false
  end.

(** What the registries of every store produced by the handlers have in
    common: a registered run has a log list, the metric lists are those of the
    registered runs and are empty, the log of a run goes with its status, and
    the fields that no handler writes are as [create_run] set them. *)
Record registry_inv (st : Store) : Prop := mk_registry_inv
  { reg_logs : forall k, is_Some (runs st !! k) -> is_Some (logs st !! k);
    reg_metrics : forall k, metrics st !! k = (fun _ => []) <$> runs st !! k;
    reg_levels : forall k r, runs st !! k = Some r ->
                   status_levels (status r) (level <$> log_of st k) = true;
    reg_fields : forall k r, runs st !! k = Some r ->
                   artifacts r = [] /\ checkpointOut r = None /\ is_Some (glueCode r) }.

(** * Properties *)

(** ** Strings *)

Lemma append_assoc (a b c : string) : (a +:+ b) +:+ c = a +:+ (b +:+ c).
Proof.
  induction a as [|x a IH]; [reflexivity|].
  change (String x ((a +:+ b) +:+ c) = String x (a +:+ (b +:+ c))).
  now rewrite IH.
Qed.

(** ** Paths into nested values *)

Lemma assoc_get_alter_ne f a b l :
  a <> b -> assoc_get b (assoc_alter f a l) = assoc_get b l.
Proof.
  intros Hab. induction l as [|[k v] l IH]; simpl; [reflexivity|].
  destruct (String.eqb_spec a k) as [->|Hak]; simpl.
  - destruct (String.eqb_spec b k) as [->|Hbk]; [congruence | reflexivity].
  - destruct (String.eqb_spec b k); [reflexivity | exact IH].
Qed.

Lemma assoc_get_alter_eq f a l :
  assoc_get a (assoc_alter f a l) = f <$> assoc_get a l.
Proof.
  induction l as [|[k v] l IH]; simpl; [reflexivity|].
  destruct (String.eqb_spec a k) as [->|Hak]; simpl.
  - now rewrite String.eqb_refl.
  - destruct (String.eqb_spec a k); [congruence | exact IH].
Qed.

Lemma json_get_alter_diverge f p :
  forall q j, diverge p q -> json_get q (json_alter f p j) = json_get q j.
Proof.
  induction p as [|[a|a] p IH]; intros q j Hd.
  - destruct q; contradiction.
  - destruct q as [|[b|b] q]; simpl in Hd; try contradiction.
    + destruct j as [| | |l]; try reflexivity. simpl.
      destruct Hd as [Hne|[<- Hd]].
      * now rewrite assoc_get_alter_ne.
      * rewrite assoc_get_alter_eq.
        destruct (assoc_get a l); simpl; [now apply IH | reflexivity].
    + destruct j; reflexivity.
  - destruct q as [|[b|b] q]; simpl in Hd; try contradiction.
    + destruct j; reflexivity.
    + destruct j as [| |l|]; try reflexivity. simpl.
      destruct Hd as [Hne|[<- Hd]].
      * now rewrite list_lookup_alter_ne.
      * rewrite list_lookup_alter_eq.
        destruct (l !! a); simpl; [now apply IH | reflexivity].
Qed.

(** ** The job template *)

Lemma monty_checkpoint_in cfg run d :
  container_env "monty" "CHECKPOINT_IN" (_prepare_job_template cfg run d)
  = Some (or_empty (checkpointIn run)).
Proof. reflexivity. Qed.

Lemma monty_checkpoint_out cfg run d :
  container_env "monty" "CHECKPOINT_OUT" (_prepare_job_template cfg run d)
  = Some "/checkpoints/out.mstate".
Proof. reflexivity. Qed.

Lemma s3_checkpoint_out_locator cfg run :
  s3_checkpoint_out cfg run = "s3://" +:+ checkpoint_out_locator cfg run "mstate".
Proof.
  reflexivity.
Qed.

Lemma uploader_script_is_its_lines cfg run :
  uploader_script cfg run
  = String.concat nl
      [ "";
        spaces 36 +:+ "set -e";
        spaces 36 +:+ "echo " +:+ dq +:+ "Uploading artifacts..." +:+ dq;
        spaces 36 +:+ aws_s3_sync "/artifacts" (s3_artifacts_prefix cfg run);
        spaces 36 +:+ "if [ -f /checkpoints/out.mstate ]; then";
        spaces 40 +:+ aws_s3_cp "/checkpoints/out.mstate" (s3_checkpoint_out cfg run);
        spaces 36 +:+ "fi";
        spaces 36 +:+ "echo " +:+ dq +:+ "Done." +:+ dq;
        spaces 36 ].
Proof.
  unfold uploader_script, aws_s3_sync, aws_s3_cp.
  cbn [String.concat]. rewrite !append_assoc. reflexivity.
Qed.

(** C2, as stated, fails: for the sample run, created without a checkpoint-in,
    the monty container's [CHECKPOINT_OUT] is the path of the file on the
    shared volume, which is neither the S3 locator that the template computes
    nor the locator spelled bucket/checkpoints/run-id/out.mstate. *)
Lemma monty_checkpoint_out_is_not_the_locator :
  checkpointIn sample_run = None /\
  container_env "monty" "CHECKPOINT_OUT" (_prepare_job_template default_config sample_run 3600)
  = Some "/checkpoints/out.mstate" /\
  Some (s3_checkpoint_out default_config sample_run)
  <> container_env "monty" "CHECKPOINT_OUT"
       (_prepare_job_template default_config sample_run 3600) /\
  Some (checkpoint_out_locator default_config sample_run "mstate")
  <> container_env "monty" "CHECKPOINT_OUT"
       (_prepare_job_template default_config sample_run 3600).
Proof. repeat split; try reflexivity; discriminate. Qed.

(** C2, amended: for every run created with no checkpoint-in, the monty
    container receives the empty string as [CHECKPOINT_IN] and the fixed path
    /checkpoints/out.mstate of the shared volume as [CHECKPOINT_OUT]; the
    locator s3://bucket/checkpoints/run-id/out.mstate, derived from the
    checkpoint bucket and the run identity, is the destination to which the
    artifact-uploader's script copies that file: the container runs
    /bin/sh -lc on a script whose lines are fixed, and the line under the
    test for /checkpoints/out.mstate is the command aws s3 cp from that path
    to the locator. *)
Theorem checkpoint_values_without_checkpoint_in cfg run d :
  checkpointIn run = None ->
  container_env "monty" "CHECKPOINT_IN" (_prepare_job_template cfg run d) = Some "" /\
  container_env "monty" "CHECKPOINT_OUT" (_prepare_job_template cfg run d)
  = Some "/checkpoints/out.mstate" /\
  uploader_command_script (_prepare_job_template cfg run d) = Some (uploader_script cfg run) /\
  container_command "artifact-uploader" (_prepare_job_template cfg run d)
  = Some (JList [JStr "/bin/sh"; JStr "-lc"; JStr (uploader_script cfg run)]) /\
  uploader_script cfg run
  = String.concat nl
      [ "";
        spaces 36 +:+ "set -e";
        spaces 36 +:+ "echo " +:+ dq +:+ "Uploading artifacts..." +:+ dq;
        spaces 36 +:+ aws_s3_sync "/artifacts" (s3_artifacts_prefix cfg run);
        spaces 36 +:+ "if [ -f /checkpoints/out.mstate ]; then";
        spaces 40 +:+ aws_s3_cp "/checkpoints/out.mstate" (s3_checkpoint_out cfg run);
        spaces 36 +:+ "fi";
        spaces 36 +:+ "echo " +:+ dq +:+ "Done." +:+ dq;
        spaces 36 ] /\
  aws_s3_cp "/checkpoints/out.mstate" (s3_checkpoint_out cfg run)
  = "aws s3 cp /checkpoints/out.mstate s3://" +:+ checkpoint_out_locator cfg run "mstate"
    +:+ " --only-show-errors" /\
  s3_checkpoint_out cfg run = "s3://" +:+ checkpoint_out_locator cfg run "mstate".
Proof.
  intros Hnone. rewrite monty_checkpoint_in, Hnone.
  split; [reflexivity|]. split; [reflexivity|]. split; [reflexivity|].
  split; [reflexivity|]. split; [apply uploader_script_is_its_lines|].
  split; [|reflexivity].
  unfold aws_s3_cp, s3_checkpoint_out, checkpoint_out_locator.
  rewrite !append_assoc. reflexivity.
Qed.

Lemma checkpoint_values_without_checkpoint_in_witness :
  container_env "monty" "CHECKPOINT_IN" (_prepare_job_template default_config sample_run 3600)
  = Some "".
Proof.
  exact (proj1 (checkpoint_values_without_checkpoint_in default_config sample_run 3600
                  eq_refl)).
Defined.

Lemma template_with_checkpointIn cfg run c d :
  _prepare_job_template cfg (with_checkpointIn c run) d
  = json_set checkpoint_in_path (JStr (or_empty c)) (_prepare_job_template cfg run d).
Proof. reflexivity. Qed.

(** C8: the template is a function of the configuration, the run and the
    deadline alone, so equal inputs give equal templates; and the template of
    a run whose [checkpointIn] is replaced is the original template with only
    the value at the monty container's [CHECKPOINT_IN] rewritten: every path
    that parts ways with that one reads the same value in both. *)
Theorem job_template_deterministic cfg run1 run2 d1 d2 c q :
  run1 = run2 -> d1 = d2 -> diverge checkpoint_in_path q ->
  _prepare_job_template cfg run1 d1 = _prepare_job_template cfg run2 d2 /\
  _prepare_job_template cfg (with_checkpointIn c run1) d1
  = json_set checkpoint_in_path (JStr (or_empty c)) (_prepare_job_template cfg run1 d1) /\
  json_get checkpoint_in_path (_prepare_job_template cfg (with_checkpointIn c run1) d1)
  = Some (JStr (or_empty c)) /\
  json_get q (_prepare_job_template cfg (with_checkpointIn c run1) d1)
  = json_get q (_prepare_job_template cfg run1 d1).
Proof.
  intros -> -> Hq. split; [reflexivity|]. split; [apply template_with_checkpointIn|].
  split; [reflexivity|].
  rewrite template_with_checkpointIn. now apply json_get_alter_diverge.
Qed.

Lemma job_template_deterministic_witness :
  json_get [Key "metadata"; Key "name"]
    (_prepare_job_template default_config
       (with_checkpointIn (Some "s3://monty-checkpoints-dev/in.mstate") sample_run) 3600)
  = json_get [Key "metadata"; Key "name"]
      (_prepare_job_template default_config sample_run 3600).
Proof.
  refine (proj2 (proj2 (proj2
    (job_template_deterministic default_config sample_run sample_run 3600 3600
       (Some "s3://monty-checkpoints-dev/in.mstate") [Key "metadata"; Key "name"]
       eq_refl eq_refl _)))).
  vm_compute. left. discriminate.
Defined.

(** ** Broadcast *)

Section Broadcast.

Variable env : Env.
Variable entry : LogEntry.

Lemma remove_first_length c conns :
  c ∈ conns -> length (remove_first c conns) = pred (length conns).
Proof.
  induction conns as [|y conns IH]; intros Hin; [now apply elem_of_nil in Hin|].
  simpl. destruct (Nat.eqb_spec c y) as [->|Hne]; [reflexivity|].
  apply elem_of_cons in Hin as [?|Hin]; [congruence|].
  simpl. rewrite IH by assumption. destruct conns; [now apply elem_of_nil in Hin | reflexivity].
Qed.

(** The loop needs no more iterations than the list has members. *)
Lemma broadcast_loop_fuel fuel :
  forall fuel' i conns,
    length conns - i <= fuel -> length conns - i <= fuel' ->
    broadcast_loop env entry fuel i conns = broadcast_loop env entry fuel' i conns.
Proof.
  induction fuel as [|fuel IH]; intros fuel' i conns Hf Hf'.
  - assert (conns !! i = None) as Hnone by (apply lookup_ge_None; lia).
    destruct fuel'; simpl; [reflexivity | now rewrite Hnone].
  - simpl. destruct (conns !! i) as [c|] eqn:Hc.
    + assert (i < length conns) by (eapply lookup_lt_Some; eauto).
      destruct fuel' as [|fuel']; [lia|]. simpl. rewrite Hc.
      destruct (send_text env c entry).
      * rewrite (IH fuel' (S i) conns) by lia. reflexivity.
      * assert (c ∈ conns) as Hin by (eapply list_elem_of_lookup_2; eauto).
        pose proof (remove_first_length c conns Hin).
        rewrite (IH fuel' (S i) (remove_first c conns)) by lia. reflexivity.
    + destruct fuel'; simpl; [reflexivity | now rewrite Hc].
Qed.

(** When no send raises, every connection is reached, in order, and the
    list of connections is left as it was. *)
Lemma broadcast_loop_healthy fuel :
  forall i conns,
    (forall c, c ∈ conns -> send_text env c entry = true) ->
    length conns - i <= fuel ->
    broadcast_loop env entry fuel i conns
    = (conns, (fun c => EvSendText c entry true) <$> drop i conns).
Proof.
  induction fuel as [|fuel IH]; intros i conns Hok Hf.
  - simpl. rewrite drop_ge by lia. reflexivity.
  - simpl. destruct (conns !! i) as [c|] eqn:Hc.
    + rewrite (Hok c) by (eapply list_elem_of_lookup_2; eauto).
      assert (i < length conns) by (eapply lookup_lt_Some; eauto).
      rewrite (IH (S i) conns Hok) by lia.
      now rewrite (drop_S _ _ _ Hc).
    + apply lookup_ge_None in Hc. rewrite drop_ge by lia. reflexivity.
Qed.

(** A broadcast leaves nothing but sends in the trace. *)
Lemma broadcast_loop_sends fuel :
  forall i conns e,
    e ∈ snd (broadcast_loop env entry fuel i conns) ->
    exists ws ok, e = EvSendText ws entry ok.
Proof.
  induction fuel as [|fuel IH]; intros i conns e; simpl.
  - intros Hin. now apply elem_of_nil in Hin.
  - destruct (conns !! i) as [c|]; [|intros Hin; now apply elem_of_nil in Hin].
    destruct (send_text env c entry).
    + destruct (broadcast_loop env entry fuel (S i) conns) as [cs t] eqn:Hl. simpl.
      intros [->|Hin]%elem_of_cons; [eauto|].
      apply (IH (S i) conns). now rewrite Hl.
    + destruct (broadcast_loop env entry fuel (S i) (remove_first c conns)) as [cs t] eqn:Hl.
      simpl. intros [->|Hin]%elem_of_cons; [eauto|].
      apply (IH (S i) (remove_first c conns)). now rewrite Hl.
Qed.

End Broadcast.

(** ** Traces *)

Lemma sends_only_appended t : sends_only t -> appended t = [].
Proof.
  induction t as [|e t IH]; intros Hs; [reflexivity|].
  destruct (Hs e) as (ws & x & ok & ->); [left|].
  simpl. apply IH. intros e' He'. apply Hs. now right.
Qed.

Lemma sends_only_status_writes t : sends_only t -> status_writes t = [].
Proof.
  induction t as [|e t IH]; intros Hs; [reflexivity|].
  destruct (Hs e) as (ws & x & ok & ->); [left|].
  simpl. apply IH. intros e' He'. apply Hs. now right.
Qed.

Lemma broadcast_sends_only env entry fuel i conns :
  sends_only (snd (broadcast_loop env entry fuel i conns)).
Proof.
  intros e He. destruct (broadcast_loop_sends env entry fuel i conns e He) as (ws & ok & ->).
  eauto.
Qed.

(** ** The handlers, outcome by outcome *)

Section Handlers.

Variable cfg : Config.
Variable env : Env.

Lemma _add_log_eq run_id lvl msg st :
  _add_log env run_id lvl msg st
  = let e := log_entry_at env st run_id lvl msg in
    let r := broadcast_loop env e (length (active_connections st)) 0
               (active_connections st) in
    (inr tt,
     {| runs := runs st;
        logs := <[run_id := log_of st run_id ++ [e]]> (logs st);
        metrics := metrics st;
        active_connections := fst r;
        log_counter := S (log_counter st) |},
     EvLogAppend e :: snd r).
Proof. reflexivity. Qed.

Lemma create_run_upload_fails request st e :
  upload_answer cfg env st request = Some e ->
  create_run cfg env request st
  = (inl (HTTPException 500 "Failed to upload glue code"),
     registered env st request, [put_event cfg env st request]).
Proof.
  unfold upload_answer. intros H.
  unfold create_run, _upload_glue_code, bind, get_store, modify, emit, raise. simpl.
  rewrite H. reflexivity.
Qed.

Lemma create_run_submission_raises request st text :
  upload_answer cfg env st request = None ->
  submission_answer cfg env st request = Some (RaisedOther text) ->
  create_run cfg env request st
  = (inl (Uncaught text), registered env st request,
     [put_event cfg env st request; job_event cfg env st request]).
Proof.
  unfold upload_answer, submission_answer. intros H1 H2.
  unfold create_run, _upload_glue_code, _create_k8s_job, bind, get_store, modify, emit,
    raise, ret. simpl.
  rewrite H1. simpl. rewrite H2. reflexivity.
Qed.

Lemma create_run_submission_fails request st e :
  upload_answer cfg env st request = None ->
  submission_answer cfg env st request = Some (RaisedApiException e) ->
  let run := new_run env (next_run_id env st) request in
  let a := _add_log env (id run) ERROR (failure_message e)
             (status_set run FAILED (registered env st request)) in
  create_run cfg env request st
  = (inl (HTTPException 500 "Failed to create simulation job"),
     store_of a,
     [put_event cfg env st request; job_event cfg env st request; EvStatus (id run) PENDING FAILED]
     ++ trace_of a).
Proof.
  unfold upload_answer, submission_answer. intros H1 H2.
  unfold create_run, _upload_glue_code, _create_k8s_job, set_status,
    bind, get_store, modify, emit, raise, ret. simpl.
  rewrite H1. simpl. rewrite H2. rewrite !_add_log_eq. simpl.
  now rewrite app_nil_r.
Qed.

Lemma create_run_succeeds request st :
  upload_answer cfg env st request = None ->
  submission_answer cfg env st request = None ->
  let run := new_run env (next_run_id env st) request in
  let a1 := _add_log env (id run) INFO "Kubernetes job created and started"
              (status_set run RUNNING (registered env st request)) in
  let a2 := _add_log env (id run) INFO (queued_message request) (store_of a1) in
  create_run cfg env request st
  = (inr (with_status RUNNING run),
     store_of a2,
     [put_event cfg env st request; job_event cfg env st request; EvStatus (id run) PENDING RUNNING]
     ++ trace_of a1 ++ trace_of a2).
Proof.
  unfold upload_answer, submission_answer. intros H1 H2.
  unfold create_run, _upload_glue_code, _create_k8s_job, set_status, deref,
    bind, get_store, modify, emit, raise, ret. simpl.
  rewrite H1. simpl. rewrite H2. rewrite !_add_log_eq. simpl.
  rewrite lookup_insert_eq. simpl. now rewrite !app_nil_r.
Qed.

Lemma cancel_run_not_found run_id st :
  runs st !! run_id = None ->
  cancel_run cfg env run_id st = (inl (HTTPException 404 "Run not found"), st, []).
Proof.
  intros H. unfold cancel_run, bind, get_store, raise. simpl. now rewrite H.
Qed.

Lemma cancel_run_refused run_id run st :
  runs st !! run_id = Some run -> cancellable (status run) = false ->
  cancel_run cfg env run_id st
  = (inl (HTTPException 400 "Run cannot be cancelled"), st, []).
Proof.
  intros H Hc. unfold cancel_run, bind, get_store, raise. simpl. now rewrite H, Hc.
Qed.

Lemma cancel_run_delete_fails run_id run st e :
  runs st !! run_id = Some run -> cancellable (status run) = true ->
  delete_namespaced_job env ("sim-run-" +:+ run_id) (NAMESPACE cfg) = Some e ->
  cancel_run cfg env run_id st
  = (inl (HTTPException 500 "Failed to cancel run"), st, [delete_event cfg run_id]).
Proof.
  intros H Hc Hd. unfold cancel_run, bind, get_store, raise, emit. simpl.
  now rewrite H, Hc, Hd.
Qed.

Lemma cancel_run_succeeds run_id run st :
  runs st !! run_id = Some run -> cancellable (status run) = true ->
  delete_namespaced_job env ("sim-run-" +:+ run_id) (NAMESPACE cfg) = None ->
  let a := _add_log env run_id INFO "Run cancelled by user"
             (status_set run CANCELLED st) in
  cancel_run cfg env run_id st
  = (inr "Run cancelled successfully",
     store_of a,
     [delete_event cfg run_id; EvStatus (id run) (status run) CANCELLED] ++ trace_of a).
Proof.
  intros H Hc Hd. unfold cancel_run, set_status, bind, get_store, raise, emit, modify, ret.
  simpl. rewrite H, Hc, Hd. simpl. rewrite !_add_log_eq. simpl.
  now rewrite !app_nil_r.
Qed.

End Handlers.

(** ** Run ids *)

Lemma string_of_uint_no_dash d : no_dash (NilEmpty.string_of_uint d).
Proof. induction d; simpl; (split; [discriminate | assumption]) || exact I. Qed.

Lemma py_str_inj n m : py_str n = py_str m -> n = m.
Proof.
  unfold py_str. intros H. apply Unsigned.to_uint_inj.
  pose proof (NilEmpty.usu (Nat.to_uint n)) as Hn.
  rewrite H, NilEmpty.usu in Hn. congruence.
Qed.

Lemma dash_delimits s :
  forall s' t t',
    no_dash s -> no_dash s' ->
    s +:+ String "-" t = s' +:+ String "-" t' -> s = s'.
Proof.
  induction s as [|c s IH]; intros [|c' s'] t t' Hs Hs' H.
  - reflexivity.
  - change (String "-" t = String c' (s' +:+ String "-" t')) in H.
    destruct Hs' as [Hc' _]. congruence.
  - change (String c (s +:+ String "-" t) = String "-" t') in H.
    destruct Hs as [Hc _]. congruence.
  - change (String c (s +:+ String "-" t) = String c' (s' +:+ String "-" t')) in H.
    destruct Hs as [_ Hs], Hs' as [_ Hs']. injection H as -> H.
    f_equal. eapply IH; eauto.
Qed.

Lemma run_key_inj n ts m ts' : run_key n ts = run_key m ts' -> n = m.
Proof.
  unfold run_key. intros H.
  apply (String.app_inj "run-") in H.
  apply py_str_inj. eapply dash_delimits; [| |exact H]; apply string_of_uint_no_dash.
Qed.

(** ** The invariant of the store *)

Lemma store_of_mk {A} (r : Exn + A) st t : store_of (r, st, t) = st.
Proof. reflexivity. Qed.

Lemma trace_of_mk {A} (r : Exn + A) st t : trace_of (r, st, t) = t.
Proof. reflexivity. Qed.

Lemma result_of_mk {A} (r : Exn + A) st t : result_of (r, st, t) = r.
Proof. reflexivity. Qed.

Lemma appended_app t1 t2 : appended (t1 ++ t2) = appended t1 ++ appended t2.
Proof. apply omap_app. Qed.

Lemma status_writes_app t1 t2 :
  status_writes (t1 ++ t2) = status_writes t1 ++ status_writes t2.
Proof. apply omap_app. Qed.

Lemma store_inv_initial : store_inv initial_store [].
Proof.
  split; simpl; try reflexivity.
  - intros k [r Hr]. now rewrite lookup_empty in Hr.
  - intros k r Hr. now rewrite lookup_empty in Hr.
  - intros k [r Hr]. now rewrite lookup_empty in Hr.
Qed.

Section Invariant.

Variable cfg : Config.
Variable env : Env.

Lemma add_log_appended run_id lvl msg st :
  appended (trace_of (_add_log env run_id lvl msg st))
  = [log_entry_at env st run_id lvl msg].
Proof.
  rewrite _add_log_eq. unfold trace_of. simpl.
  now rewrite (sends_only_appended _ (broadcast_sends_only _ _ _ _ _)).
Qed.

Lemma add_log_status_writes run_id lvl msg st :
  status_writes (trace_of (_add_log env run_id lvl msg st)) = [].
Proof.
  rewrite _add_log_eq. unfold trace_of. simpl.
  now rewrite (sends_only_status_writes _ (broadcast_sends_only _ _ _ _ _)).
Qed.

Lemma add_log_runs run_id lvl msg st :
  runs (store_of (_add_log env run_id lvl msg st)) = runs st.
Proof. now rewrite _add_log_eq. Qed.

Lemma add_log_log_of run_id lvl msg st k :
  log_of (store_of (_add_log env run_id lvl msg st)) k
  = log_of st k ++ filter (fun e => runId e = k) [log_entry_at env st run_id lvl msg].
Proof.
  rewrite _add_log_eq. unfold store_of, log_of. simpl.
  destruct (decide (run_id = k)) as [->|Hne].
  - rewrite lookup_insert_eq. simpl. rewrite filter_cons_True by reflexivity.
    now rewrite filter_nil.
  - rewrite lookup_insert_ne by assumption.
    rewrite filter_cons_False by (simpl; congruence).
    now rewrite filter_nil, app_nil_r.
Qed.

Lemma add_log_inv run_id lvl msg st la :
  store_inv st la -> is_Some (runs st !! run_id) ->
  store_inv (store_of (_add_log env run_id lvl msg st))
    (la ++ [log_entry_at env st run_id lvl msg]).
Proof.
  intros [Hk Hi Hd Hl Hc] Hrun. split.
  - rewrite add_log_runs. exact Hk.
  - rewrite add_log_runs. exact Hi.
  - rewrite add_log_runs. rewrite _add_log_eq. unfold store_of. simpl.
    intros k. destruct (decide (run_id = k)) as [->|Hne]; [easy|].
    rewrite lookup_insert_ne by assumption. apply Hd.
  - intros k. rewrite add_log_log_of, filter_app.
    now rewrite Hl.
  - rewrite fmap_app, Hc.
    rewrite _add_log_eq. unfold store_of. cbn [fst snd log_counter].
    now rewrite seq_S.
Qed.

Lemma status_set_inv run s st la :
  store_inv st la -> is_Some (runs st !! id run) ->
  store_inv (status_set run s st) la.
Proof.
  intros [Hk Hi Hd Hl Hc] [r0 Hr0]. unfold status_set. split; simpl.
  - intros k Hsome. rewrite map_size_insert_Some by eauto.
    apply Hk. destruct (decide (id run = k)) as [<-|Hne]; [eauto|].
    now rewrite lookup_insert_ne in Hsome.
  - intros k r. destruct (decide (id run = k)) as [<-|Hne].
    + rewrite lookup_insert_eq. now intros [= <-].
    + rewrite lookup_insert_ne by assumption. apply Hi.
  - intros k Hsome. destruct (decide (id run = k)) as [<-|Hne].
    + rewrite lookup_insert_eq. eauto.
    + rewrite lookup_insert_ne by assumption. now apply Hd.
  - exact Hl.
  - exact Hc.
Qed.

(** The id given to the next run is not in the registry yet. *)
Lemma next_run_id_fresh st t :
  store_inv st t -> runs st !! next_run_id env st = None.
Proof.
  intros [Hk _ _ _ _].
  destruct (runs st !! next_run_id env st) as [r|] eqn:Hr; [|reflexivity].
  destruct (Hk (next_run_id env st)) as (n & ts & Heq & Hn); [eauto|].
  apply run_key_inj in Heq. lia.
Qed.

Lemma registered_inv request st t :
  store_inv st t -> store_inv (registered env st request) t.
Proof.
  intros Hinv. pose proof (next_run_id_fresh st t Hinv) as Hfresh.
  destruct Hinv as [Hk Hi Hd Hl Hc]. unfold registered. split; simpl.
  - intros k Hsome. rewrite map_size_insert_None by assumption.
    destruct (decide (next_run_id env st = k)) as [<-|Hne].
    + exists (size (runs st) + 1), (strftime (now_run_id env)). split; [reflexivity | lia].
    + rewrite lookup_insert_ne in Hsome by assumption.
      destruct (Hk k Hsome) as (n & ts & ? & ?). exists n, ts. split; [assumption | lia].
  - intros k r. destruct (decide (next_run_id env st = k)) as [<-|Hne].
    + rewrite lookup_insert_eq. now intros [= <-].
    + rewrite lookup_insert_ne by assumption. apply Hi.
  - intros k. destruct (decide (next_run_id env st = k)) as [<-|Hne].
    + rewrite !lookup_insert_eq. eauto.
    + rewrite !lookup_insert_ne by assumption. apply Hd.
  - intros k. rewrite <- Hl. unfold log_of. simpl.
    destruct (decide (next_run_id env st = k)) as [<-|Hne].
    + rewrite lookup_insert_eq.
      destruct (logs st !! next_run_id env st) as [l|] eqn:Hlog; [|reflexivity].
      destruct (Hd (next_run_id env st)) as [r Hr]; [eauto|]. congruence.
    + now rewrite lookup_insert_ne.
  - exact Hc.
Qed.

End Invariant.

Section Serving.

Variable cfg : Config.

Lemma handle_create env request st :
  handle cfg env (CreateRun request) st
  = match create_run cfg env request st with
    | (inl e, st1, t1) => (inl e, st1, t1)
    | (inr run, st1, t1) => (inr (RunCreated run), st1, t1)
    end.
Proof.
  unfold handle, bind, ret.
  destruct (create_run cfg env request st) as [[[e|run] st1] t1]; [reflexivity|].
  now rewrite app_nil_r.
Qed.

Lemma handle_cancel env run_id st :
  handle cfg env (CancelRun run_id) st
  = match cancel_run cfg env run_id st with
    | (inl e, st1, t1) => (inl e, st1, t1)
    | (inr msg, st1, t1) => (inr (RunCancelled msg), st1, t1)
    end.
Proof.
  unfold handle, bind, ret.
  destruct (cancel_run cfg env run_id st) as [[[e|msg] st1] t1]; [reflexivity|].
  now rewrite app_nil_r.
Qed.

(** Every handler keeps the invariant, extending the entries logged so far
    by those of its trace. *)
Lemma handle_inv env rq st la :
  store_inv st la ->
  store_inv (store_of (handle cfg env rq st))
    (la ++ appended (trace_of (handle cfg env rq st))).
Proof.
  intros Hinv. destruct rq as [request|run_id|ws|ws].
  - rewrite handle_create.
    pose proof (registered_inv env request st la Hinv) as Hreg.
    set (run := new_run env (next_run_id env st) request).
    assert (is_Some (runs (registered env st request) !! id run)) as Hin.
    { simpl. rewrite lookup_insert_eq. eauto. }
    destruct (upload_answer cfg env st request) as [e|] eqn:Hup.
    { rewrite (create_run_upload_fails cfg env request st e Hup).
      rewrite store_of_mk, trace_of_mk. simpl. now rewrite app_nil_r. }
    destruct (submission_answer cfg env st request) as [[e|text]|] eqn:Hsub.
    2:{ rewrite (create_run_submission_raises cfg env request st text Hup Hsub).
      rewrite store_of_mk, trace_of_mk. simpl. now rewrite app_nil_r. }
    + rewrite (create_run_submission_fails cfg env request st e Hup Hsub).
      rewrite store_of_mk, trace_of_mk, appended_app, add_log_appended. simpl.
      apply add_log_inv; [now apply status_set_inv|].
      simpl. rewrite lookup_insert_eq. eauto.
    + rewrite (create_run_succeeds cfg env request st Hup Hsub).
      rewrite store_of_mk, trace_of_mk, !appended_app, !add_log_appended. simpl.
      match goal with
      | |- store_inv _ (la ++ [?a; ?b]) =>
          replace (la ++ [a; b]) with ((la ++ [a]) ++ [b]) by (now rewrite <- app_assoc)
      end.
      apply add_log_inv.
      * apply add_log_inv; [now apply status_set_inv|].
        simpl. rewrite lookup_insert_eq. eauto.
      * rewrite add_log_runs. simpl. rewrite lookup_insert_eq. eauto.
  - rewrite handle_cancel.
    destruct (runs st !! run_id) as [run|] eqn:Hrun.
    2:{ rewrite (cancel_run_not_found cfg env run_id st Hrun).
        rewrite store_of_mk, trace_of_mk. simpl. now rewrite app_nil_r. }
    destruct (cancellable (status run)) eqn:Hc.
    2:{ rewrite (cancel_run_refused cfg env run_id run st Hrun Hc).
        rewrite store_of_mk, trace_of_mk. simpl. now rewrite app_nil_r. }
    destruct (delete_namespaced_job env ("sim-run-" +:+ run_id) (NAMESPACE cfg))
      as [e|] eqn:Hdel.
    { rewrite (cancel_run_delete_fails cfg env run_id run st e Hrun Hc Hdel).
      rewrite store_of_mk, trace_of_mk. simpl. now rewrite app_nil_r. }
    rewrite (cancel_run_succeeds cfg env run_id run st Hrun Hc Hdel).
    rewrite store_of_mk, trace_of_mk, appended_app, add_log_appended. simpl.
    assert (id run = run_id) as Hid by (eapply inv_ids; eauto).
    apply add_log_inv.
    + apply status_set_inv; [assumption|]. rewrite Hid. eauto.
    + simpl. rewrite Hid, lookup_insert_eq. eauto.
  - simpl. rewrite app_nil_r. destruct Hinv. now split.
  - simpl. rewrite app_nil_r. destruct Hinv. now split.
Qed.

Lemma serve_cons env rq rqs st :
  serve cfg ((env, rq) :: rqs) st
  = let h := handle cfg env rq st in
    let r := serve cfg rqs (store_of h) in
    (fst (fst r), result_of h :: snd (fst r), trace_of h ++ snd r).
Proof.
  simpl. destruct (handle cfg env rq st) as [[res st1] t1].
  rewrite store_of_mk, trace_of_mk, result_of_mk.
  now destruct (serve cfg rqs st1) as [[st2 rs] t2].
Qed.

Lemma serve_app rqs1 :
  forall rqs2 st,
    serve cfg (rqs1 ++ rqs2) st
    = let r1 := serve cfg rqs1 st in
      let r2 := serve cfg rqs2 (fst (fst r1)) in
      (fst (fst r2), snd (fst r1) ++ snd (fst r2), snd r1 ++ snd r2).
Proof.
  induction rqs1 as [|[env rq] rqs1 IH]; intros rqs2 st.
  - simpl. now destruct (serve cfg rqs2 st) as [[st2 rs] t2].
  - rewrite <- app_comm_cons, !serve_cons. cbn zeta. rewrite IH. cbn zeta.
    cbn [fst snd]. now rewrite app_assoc.
Qed.

Lemma serve_inv rqs :
  forall st la,
    store_inv st la ->
    store_inv (fst (fst (serve cfg rqs st))) (la ++ appended (snd (serve cfg rqs st))).
Proof.
  induction rqs as [|[env rq] rqs IH]; intros st la Hinv.
  - simpl. now rewrite app_nil_r.
  - rewrite serve_cons. cbn zeta. cbn [fst snd].
    rewrite appended_app, app_assoc. apply IH. now apply handle_inv.
Qed.

Lemma reachable_inv rqs :
  store_inv (final_store cfg rqs) (appended (full_trace cfg rqs)).
Proof. apply (serve_inv rqs initial_store []), store_inv_initial. Qed.

End Serving.

(** ** Log sequence ids *)

Lemma seq_strongly_sorted n : forall a, StronglySorted lt (seq a n).
Proof.
  induction n as [|n IH]; intros a; simpl; constructor; [apply IH|].
  apply Forall_forall. intros x Hx%list_elem_of_In%in_seq. lia.
Qed.

Lemma final_store_snoc cfg rqs env rq :
  final_store cfg (rqs ++ [(env, rq)])
  = store_of (handle cfg env rq (final_store cfg rqs)).
Proof.
  unfold final_store. rewrite serve_app. cbn zeta. cbn [fst snd].
  rewrite serve_cons. reflexivity.
Qed.

Lemma full_trace_snoc cfg rqs env rq :
  full_trace cfg (rqs ++ [(env, rq)])
  = full_trace cfg rqs ++ trace_of (handle cfg env rq (final_store cfg rqs)).
Proof.
  unfold full_trace, final_store. rewrite serve_app. cbn zeta. cbn [fst snd].
  rewrite serve_cons. cbn zeta. cbn [fst snd serve]. now rewrite app_nil_r.
Qed.

(** C6: over any sequence of requests, the ids of the log entries, in the
    order in which the entries are appended, are 0, 1, 2, ... up to the
    counter: strictly increasing and without repetition, whatever run each
    entry belongs to. Every run's log list holds exactly the appended entries
    of that run, in order, and one more request only extends it. *)
Theorem log_ids_increase_and_logs_grow cfg rqs :
  log_id <$> appended (full_trace cfg rqs) = seq 0 (log_counter (final_store cfg rqs)) /\
  StronglySorted lt (log_id <$> appended (full_trace cfg rqs)) /\
  NoDup (log_id <$> appended (full_trace cfg rqs)) /\
  (forall run_id,
     log_of (final_store cfg rqs) run_id
     = filter (fun e => runId e = run_id) (appended (full_trace cfg rqs))) /\
  (forall env rq run_id,
     log_of (final_store cfg rqs) run_id
       `prefix_of` log_of (final_store cfg (rqs ++ [(env, rq)])) run_id).
Proof.
  pose proof (reachable_inv cfg rqs) as Hinv.
  pose proof (inv_counter _ _ Hinv) as Hc.
  split; [exact Hc|]. split; [rewrite Hc; apply seq_strongly_sorted|].
  split; [rewrite Hc; apply NoDup_ListNoDup, List.seq_NoDup|].
  split; [apply (inv_logs _ _ Hinv)|].
  intros env rq run_id.
  pose proof (reachable_inv cfg (rqs ++ [(env, rq)])) as Hinv'.
  rewrite (inv_logs _ _ Hinv), (inv_logs _ _ Hinv'), full_trace_snoc, appended_app, filter_app.
  now apply prefix_app_r.
Qed.

(** ** Status moves *)

Section StatusMoves.

Variable cfg : Config.
Variable env : Env.

Lemma cancellable_edge s : cancellable s = true -> lifecycle_edge s CANCELLED = true.
Proof. destruct s; simpl; intros H; (reflexivity || discriminate). Qed.

Lemma terminal_not_cancellable s : terminal s = true <-> cancellable s = false.
Proof. destruct s; simpl; split; intros H; (reflexivity || discriminate). Qed.

(** What one request does to a run that is already registered: nothing, or
    the move to [CANCELLED] of a run that was pending or running. *)
Lemma handle_run_step rq st la k r :
  store_inv st la -> runs st !! k = Some r ->
  runs (store_of (handle cfg env rq st)) !! k = Some r \/
  (cancellable (status r) = true /\
   runs (store_of (handle cfg env rq st)) !! k = Some (with_status CANCELLED r)).
Proof.
  intros Hinv Hk. destruct rq as [request|run_id|ws|ws].
  - left. rewrite handle_create.
    assert (next_run_id env st <> k) as Hne.
    { intros <-. rewrite (next_run_id_fresh env st la Hinv) in Hk. discriminate. }
    destruct (upload_answer cfg env st request) as [e|] eqn:Hup.
    { rewrite (create_run_upload_fails cfg env request st e Hup), store_of_mk.
      simpl. now rewrite lookup_insert_ne. }
    destruct (submission_answer cfg env st request) as [[e|text]|] eqn:Hsub.
    2:{ rewrite (create_run_submission_raises cfg env request st text Hup Hsub), store_of_mk.
      simpl. now rewrite lookup_insert_ne. }
    + rewrite (create_run_submission_fails cfg env request st e Hup Hsub), store_of_mk.
      rewrite add_log_runs. simpl. now rewrite !lookup_insert_ne.
    + rewrite (create_run_succeeds cfg env request st Hup Hsub), store_of_mk.
      rewrite !add_log_runs. simpl. now rewrite !lookup_insert_ne.
  - rewrite handle_cancel.
    destruct (runs st !! run_id) as [run|] eqn:Hrun.
    2:{ left. now rewrite (cancel_run_not_found cfg env run_id st Hrun), store_of_mk. }
    destruct (cancellable (status run)) eqn:Hc.
    2:{ left. now rewrite (cancel_run_refused cfg env run_id run st Hrun Hc), store_of_mk. }
    destruct (delete_namespaced_job env ("sim-run-" +:+ run_id) (NAMESPACE cfg))
      as [e|] eqn:Hdel.
    { left.
      now rewrite (cancel_run_delete_fails cfg env run_id run st e Hrun Hc Hdel), store_of_mk. }
    rewrite (cancel_run_succeeds cfg env run_id run st Hrun Hc Hdel), store_of_mk.
    rewrite add_log_runs. simpl.
    assert (id run = run_id) as Hid by (eapply inv_ids; eauto).
    rewrite Hid. destruct (decide (run_id = k)) as [->|Hne].
    + right. rewrite lookup_insert_eq. replace r with run by congruence. now split.
    + left. now rewrite lookup_insert_ne.
  - left. exact Hk.
  - left. exact Hk.
Qed.

(** The status writes of one request, with the status written over. *)
Lemma handle_status_writes rq st run_id a b :
  (run_id, a, b) ∈ status_writes (trace_of (handle cfg env rq st)) ->
  lifecycle_edge a b = true.
Proof.
  destruct rq as [request|rid|ws|ws].
  - rewrite handle_create.
    destruct (upload_answer cfg env st request) as [e|] eqn:Hup.
    { rewrite (create_run_upload_fails cfg env request st e Hup), trace_of_mk.
      simpl. intros H. now apply elem_of_nil in H. }
    destruct (submission_answer cfg env st request) as [[e|text]|] eqn:Hsub.
    2:{ rewrite (create_run_submission_raises cfg env request st text Hup Hsub), trace_of_mk.
      simpl. intros H. now apply elem_of_nil in H. }
    + rewrite (create_run_submission_fails cfg env request st e Hup Hsub), trace_of_mk.
      rewrite status_writes_app, add_log_status_writes. simpl.
      intros H%list_elem_of_singleton. now inversion H.
    + rewrite (create_run_succeeds cfg env request st Hup Hsub), trace_of_mk.
      rewrite !status_writes_app, !add_log_status_writes. simpl.
      intros H%list_elem_of_singleton. now inversion H.
  - rewrite handle_cancel.
    destruct (runs st !! rid) as [run|] eqn:Hrun.
    2:{ rewrite (cancel_run_not_found cfg env rid st Hrun), trace_of_mk.
        intros H. now apply elem_of_nil in H. }
    destruct (cancellable (status run)) eqn:Hc.
    2:{ rewrite (cancel_run_refused cfg env rid run st Hrun Hc), trace_of_mk.
        intros H. now apply elem_of_nil in H. }
    destruct (delete_namespaced_job env ("sim-run-" +:+ rid) (NAMESPACE cfg))
      as [e|] eqn:Hdel.
    { rewrite (cancel_run_delete_fails cfg env rid run st e Hrun Hc Hdel), trace_of_mk.
      simpl. intros H. now apply elem_of_nil in H. }
    rewrite (cancel_run_succeeds cfg env rid run st Hrun Hc Hdel), trace_of_mk.
    rewrite status_writes_app, add_log_status_writes. simpl.
    intros H%list_elem_of_singleton. inversion H; subst. now apply cancellable_edge.
  - simpl. intros H. now apply elem_of_nil in H.
  - simpl. intros H. now apply elem_of_nil in H.
Qed.

End StatusMoves.

Lemma serve_status_writes cfg rqs :
  forall st run_id a b,
    (run_id, a, b) ∈ status_writes (snd (serve cfg rqs st)) -> lifecycle_edge a b = true.
Proof.
  induction rqs as [|[env rq] rqs IH]; intros st run_id a b.
  - simpl. intros H. now apply elem_of_nil in H.
  - rewrite serve_cons. cbn zeta. cbn [snd]. rewrite status_writes_app.
    intros [H|H]%elem_of_app.
    + eapply handle_status_writes; eauto.
    + eapply IH; eauto.
Qed.

(** ** Run identities *)

Section Identities.

Variable cfg : Config.

Lemma handle_runs_mono env rq st la k :
  store_inv st la -> is_Some (runs st !! k) ->
  is_Some (runs (store_of (handle cfg env rq st)) !! k).
Proof.
  intros Hinv [r Hr].
  destruct (handle_run_step cfg env rq st la k r Hinv Hr) as [H|[_ H]];
    rewrite H; eauto.
Qed.

(** A [create_run] that returns hands back a run filed under the id that
    was next, which from then on is taken. *)
Lemma handle_created env rq st run :
  result_of (handle cfg env rq st) = inr (RunCreated run) ->
  id run = next_run_id env st /\
  is_Some (runs (store_of (handle cfg env rq st)) !! id run).
Proof.
  destruct rq as [request|rid|ws|ws].
  - rewrite handle_create.
    destruct (upload_answer cfg env st request) as [e|] eqn:Hup.
    { now rewrite (create_run_upload_fails cfg env request st e Hup), result_of_mk. }
    destruct (submission_answer cfg env st request) as [[e|text]|] eqn:Hsub.
    2:{ now rewrite (create_run_submission_raises cfg env request st text Hup Hsub), result_of_mk. }
    { now rewrite (create_run_submission_fails cfg env request st e Hup Hsub), result_of_mk. }
    rewrite (create_run_succeeds cfg env request st Hup Hsub), result_of_mk, store_of_mk.
    intros [= <-]. split; [reflexivity|].
    rewrite !add_log_runs. simpl. rewrite lookup_insert_eq. eauto.
  - rewrite handle_cancel.
    destruct (cancel_run cfg env rid st) as [[[e|msg] st1] t1]; rewrite result_of_mk;
      discriminate.
  - discriminate.
  - discriminate.
Qed.

Lemma created_ids_cons r rs :
  created_ids (r :: rs)
  = match r with
    | inr (RunCreated run) => id run :: created_ids rs
    | _ => created_ids rs
    end.
Proof. destruct r as [e|[run|msg|]]; reflexivity. Qed.

Lemma serve_created_ids rqs :
  forall st la,
    store_inv st la ->
    (forall k, is_Some (runs st !! k) -> is_Some (runs (fst (fst (serve cfg rqs st))) !! k)) /\
    NoDup (created_ids (snd (fst (serve cfg rqs st)))) /\
    (forall k, k ∈ created_ids (snd (fst (serve cfg rqs st))) -> runs st !! k = None).
Proof.
  induction rqs as [|[env rq] rqs IH]; intros st la Hinv.
  - simpl. split; [tauto|]. split; [constructor|].
    intros k Hk. now apply elem_of_nil in Hk.
  - rewrite serve_cons. cbn zeta. cbn [fst snd].
    pose proof (handle_inv cfg env rq st la Hinv) as Hinv1.
    destruct (IH _ _ Hinv1) as (Hmono & Hnd & Hnew).
    split; [|split].
    + intros k Hk. apply Hmono. eapply handle_runs_mono; eauto.
    + rewrite created_ids_cons.
      destruct (result_of (handle cfg env rq st)) as [e|[run|msg|]] eqn:Hres; try exact Hnd.
      destruct (handle_created env rq st run Hres) as [_ Hsome].
      constructor; [|exact Hnd].
      intros Hin. apply Hnew in Hin. rewrite Hin in Hsome. now destruct Hsome.
    + intros k. rewrite created_ids_cons.
      assert (k ∈ created_ids (snd (fst (serve cfg rqs (store_of (handle cfg env rq st)))))
              -> runs st !! k = None) as Hrest.
      { intros Hin. apply Hnew in Hin.
        destruct (runs st !! k) as [r|] eqn:Hr; [|reflexivity].
        destruct (handle_runs_mono env rq st la k Hinv) as [r' Hr']; [eauto|]. congruence. }
      destruct (result_of (handle cfg env rq st)) as [e|[run|msg|]] eqn:Hres; try exact Hrest.
      intros [->|Hin]%elem_of_cons; [|now apply Hrest].
      destruct (handle_created env rq st run Hres) as [-> _].
      eapply next_run_id_fresh; eauto.
Qed.

End Identities.

(** C7: over any sequence of requests, the runs handed back by the
    [create_run] calls that return have pairwise distinct ids. *)
Theorem created_run_ids_distinct cfg rqs : NoDup (created_ids (responses cfg rqs)).
Proof.
  unfold responses.
  exact (proj1 (proj2 (serve_created_ids cfg rqs initial_store [] store_inv_initial))).
Qed.

(** ** Refused cancellations *)

Lemma cancel_terminal cfg env st run_id run :
  runs st !! run_id = Some run -> terminal (status run) = true ->
  cancel_run cfg env run_id st = (inl (HTTPException 400 "Run cannot be cancelled"), st, []).
Proof.
  intros Hrun Ht. apply (cancel_run_refused cfg env run_id run st Hrun).
  now apply terminal_not_cancellable.
Qed.

(** C1, as stated, fails: a run left pending by a failed upload is moved to
    Cancelled by a cancel request that succeeds, and Pending to Cancelled is
    not one of the listed edges. *)
Lemma pending_run_is_cancelled :
  status_of (final_store default_config [(env_s3_down, CreateRun sample_request)]) sample_id
  = Some PENDING /\
  responses default_config upload_fails_then_cancel
  = [inl (HTTPException 500 "Failed to upload glue code");
     inr (RunCancelled "Run cancelled successfully")] /\
  status_of (final_store default_config upload_fails_then_cancel) sample_id
  = Some CANCELLED /\
  status_writes (full_trace default_config upload_fails_then_cancel)
  = [(sample_id, PENDING, CANCELLED)] /\
  spec_edge PENDING CANCELLED = false.
Proof. vm_compute. repeat split. Qed.

(** C1, amended: over any sequence of requests, every write to a run's status
    moves it along one of the edges Pending to Running, Pending to Failed,
    Pending to Cancelled, Running to Completed, Running to Failed, Running to
    Cancelled; a request leaves the status of a registered run as it was or
    moves it along such an edge; and a cancel request for a run that is
    Completed, Failed or Cancelled fails with status code 400 and leaves the
    store, hence the status, unchanged. *)
Theorem status_moves_along_lifecycle_edges cfg :
  (forall rqs run_id a b,
     (run_id, a, b) ∈ status_writes (full_trace cfg rqs) -> lifecycle_edge a b = true) /\
  (forall rqs env rq k r r',
     runs (final_store cfg rqs) !! k = Some r ->
     runs (final_store cfg (rqs ++ [(env, rq)])) !! k = Some r' ->
     status r' = status r \/ lifecycle_edge (status r) (status r') = true) /\
  (forall env st k run,
     runs st !! k = Some run -> terminal (status run) = true ->
     handle cfg env (CancelRun k) st
     = (inl (HTTPException 400 "Run cannot be cancelled"), st, [])).
Proof.
  split; [|split].
  - intros rqs run_id a b. apply serve_status_writes.
  - intros rqs env rq k r r' Hr Hr'. rewrite final_store_snoc in Hr'.
    destruct (handle_run_step cfg env rq _ _ k r (reachable_inv cfg rqs) Hr) as [H|[Hc H]];
      rewrite H in Hr'; injection Hr' as <-.
    + now left.
    + right. simpl. now apply cancellable_edge.
  - intros env st k run Hrun Ht.
    now rewrite handle_cancel, (cancel_terminal cfg env st k run Hrun Ht).
Qed.

Lemma status_moves_along_lifecycle_edges_witness :
  lifecycle_edge PENDING CANCELLED = true /\
  (status (with_status CANCELLED (new_run env_s3_down sample_id sample_request))
   = status (new_run env_s3_down sample_id sample_request) \/
   lifecycle_edge (status (new_run env_s3_down sample_id sample_request))
     (status (with_status CANCELLED (new_run env_s3_down sample_id sample_request))) = true) /\
  handle default_config env_ok (CancelRun sample_id) completed_store
  = (inl (HTTPException 400 "Run cannot be cancelled"), completed_store, []).
Proof.
  destruct (status_moves_along_lifecycle_edges default_config) as (H1 & H2 & H3).
  split; [|split].
  - apply (H1 upload_fails_then_cancel sample_id PENDING CANCELLED).
    vm_compute. left.
  - apply (H2 [(env_s3_down, CreateRun sample_request)] env_ok (CancelRun sample_id) sample_id).
    + vm_compute. reflexivity.
    + vm_compute. reflexivity.
  - apply (H3 env_ok completed_store sample_id (with_status COMPLETED sample_run)).
    + vm_compute. reflexivity.
    + vm_compute. reflexivity.
Defined.

(** C9: a cancel request for a run whose status is Completed, Failed or
    Cancelled fails with status code 400 ("Run cannot be cancelled"); it
    appends no log entry, calls the scheduler not at all, and leaves the whole
    store, the run's status and log list included, as it was. *)
Theorem cancel_of_terminal_run_refused cfg env st run_id run :
  runs st !! run_id = Some run -> terminal (status run) = true ->
  result_of (cancel_run cfg env run_id st)
  = inl (HTTPException 400 "Run cannot be cancelled") /\
  appended (trace_of (cancel_run cfg env run_id st)) = [] /\
  scheduler_calls (trace_of (cancel_run cfg env run_id st)) = [] /\
  store_of (cancel_run cfg env run_id st) = st /\
  status_of (store_of (cancel_run cfg env run_id st)) run_id = Some (status run) /\
  log_of (store_of (cancel_run cfg env run_id st)) run_id = log_of st run_id.
Proof.
  intros Hrun Ht. rewrite (cancel_terminal cfg env st run_id run Hrun Ht).
  rewrite result_of_mk, trace_of_mk, store_of_mk. repeat split.
  unfold status_of. now rewrite Hrun.
Qed.

Lemma cancel_of_terminal_run_refused_witness :
  result_of (cancel_run default_config env_ok sample_id completed_store)
  = inl (HTTPException 400 "Run cannot be cancelled") /\
  store_of (cancel_run default_config env_ok sample_id completed_store) = completed_store.
Proof.
  destruct (cancel_of_terminal_run_refused default_config env_ok completed_store sample_id
              (with_status COMPLETED sample_run)) as (H1 & _ & _ & H2 & _).
  - vm_compute. reflexivity.
  - vm_compute. reflexivity.
  - split; [exact H1 | exact H2].
Defined.

(** ** Outcomes of create_run *)

Lemma add_log_logs env run_id lvl msg st :
  logs (store_of (_add_log env run_id lvl msg st)) !! run_id
  = Some (log_of st run_id ++ [log_entry_at env st run_id lvl msg]).
Proof. rewrite _add_log_eq. unfold store_of. simpl. now rewrite lookup_insert_eq. Qed.


(** C4 does not hold of [create_run]: when the upload raises, the call
    returns the storage error and the run stays registered as Pending, but
    [_upload_glue_code] appends nothing to the run's log list, which therefore
    holds no Error entry; the failure branch of [_create_k8s_job] does append
    one. *)
Theorem upload_failure_appends_no_log :
  result_of (create_run default_config env_s3_down sample_request initial_store)
  = inl (HTTPException 500 "Failed to upload glue code") /\
  status_of (store_of (create_run default_config env_s3_down sample_request initial_store))
    sample_id = Some PENDING /\
  logs (store_of (create_run default_config env_s3_down sample_request initial_store))
    !! sample_id = Some [] /\
  appended (trace_of (create_run default_config env_s3_down sample_request initial_store))
  = [] /\
  ~ (exists e,
       e ∈ log_of (store_of (create_run default_config env_s3_down sample_request
                               initial_store)) sample_id /\
       level e = ERROR).
Proof.
  vm_compute. repeat split. intros (e & He & _). inversion He.
Qed.

(** Whatever the store, a failed upload leaves the new run pending with an
    empty log list, and the log counter where it was. *)
Lemma upload_failure_leaves_run_pending cfg env request st e :
  upload_answer cfg env st request = Some e ->
  result_of (create_run cfg env request st)
  = inl (HTTPException 500 "Failed to upload glue code") /\
  status_of (store_of (create_run cfg env request st)) (next_run_id env st) = Some PENDING /\
  logs (store_of (create_run cfg env request st)) !! next_run_id env st = Some [] /\
  appended (trace_of (create_run cfg env request st)) = [] /\
  log_counter (store_of (create_run cfg env request st)) = log_counter st.
Proof.
  intros Hup. rewrite (create_run_upload_fails cfg env request st e Hup).
  rewrite result_of_mk, store_of_mk, trace_of_mk. unfold status_of. simpl.
  rewrite !lookup_insert_eq. repeat split.
Qed.




(** C10: when both the upload and the submission succeed, [create_run]
    returns the run with status Running, the very run then held by the
    registry, and the run's log list holds exactly two Info entries: first
    "Kubernetes job created and started", then "Run <name> created and
    queued". *)
Theorem successful_create_returns_running_run cfg env request st :
  upload_answer cfg env st request = None ->
  submission_answer cfg env st request = None ->
  exists run e1 e2,
    result_of (create_run cfg env request st) = inr run /\
    status run = RUNNING /\ id run = next_run_id env st /\
    runs (store_of (create_run cfg env request st)) !! id run = Some run /\
    logs (store_of (create_run cfg env request st)) !! id run = Some [e1; e2] /\
    level e1 = INFO /\ message e1 = "Kubernetes job created and started" /\
    level e2 = INFO /\
    message e2 = "Run " +:+ req_name request +:+ " created and queued" /\
    appended (trace_of (create_run cfg env request st)) = [e1; e2].
Proof.
  intros Hup Hsub.
  pose (rid := next_run_id env st).
  pose (st1 := status_set (new_run env rid request) RUNNING (registered env st request)).
  pose (e1 := log_entry_at env st1 rid INFO "Kubernetes job created and started").
  pose (a1 := _add_log env rid INFO "Kubernetes job created and started" st1).
  exists (with_status RUNNING (new_run env rid request)), e1.
  exists (log_entry_at env (store_of a1) rid INFO (queued_message request)).
  rewrite (create_run_succeeds cfg env request st Hup Hsub).
  rewrite result_of_mk, store_of_mk, trace_of_mk.
  assert (log_of st1 rid = []) as H0.
  { unfold log_of. simpl. now rewrite lookup_insert_eq. }
  repeat split.
  - rewrite !add_log_runs. simpl. now rewrite lookup_insert_eq.
  - change (logs (store_of (_add_log env rid INFO (queued_message request) (store_of a1)))
            !! rid
            = Some [e1; log_entry_at env (store_of a1) rid INFO (queued_message request)]).
    rewrite add_log_logs. f_equal. unfold log_of at 1. unfold a1 at 1.
    rewrite add_log_logs. simpl. now rewrite H0.
  - rewrite !appended_app, !add_log_appended. reflexivity.
Qed.

Lemma successful_create_returns_running_run_witness :
  exists run,
    result_of (create_run default_config env_ok sample_request initial_store) = inr run /\
    status run = RUNNING.
Proof.
  destruct (successful_create_returns_running_run default_config env_ok sample_request
              initial_store) as (run & e1 & e2 & H1 & H2 & _).
  - vm_compute. reflexivity.
  - vm_compute. reflexivity.
  - exists run. split; assumption.
Defined.

(** ** Broadcast with a failing peer *)

(** C3 does not hold of [_broadcast_log]: with observers 1 and 2 connected
    and the send to 1 raising, the removal of 1 inside the loop shifts 2 into
    the slot that the iterator has already left, and the loop ends without a
    send to 2, although a send to 2 would go through. Observer 1 is removed.
    Seen from the requests: of the two entries logged by a [create_run],
    observer 2 receives only the second. *)
Theorem broadcast_skips_observer_after_failed_send :
  active_connections (final_store default_config two_observers) = [1; 2] /\
  send_text env_peer1_gone 1 sample_entry = false /\
  send_text env_peer1_gone 2 sample_entry = true /\
  trace_of (_broadcast_log env_peer1_gone sample_entry
              (final_store default_config two_observers))
  = [EvSendText 1 sample_entry false] /\
  deliveries (trace_of (_broadcast_log env_peer1_gone sample_entry
                          (final_store default_config two_observers))) = [] /\
  active_connections (store_of (_broadcast_log env_peer1_gone sample_entry
                                  (final_store default_config two_observers))) = [2] /\
  appended (full_trace default_config two_observers_then_create)
  = [sample_entry;
     {| log_id := 1; runId := sample_id; timestamp := sample_time; level := INFO;
        message := "Run demo created and queued" |}] /\
  deliveries (full_trace default_config two_observers_then_create)
  = [(2, {| log_id := 1; runId := sample_id; timestamp := sample_time; level := INFO;
            message := "Run demo created and queued" |})].
Proof. vm_compute. repeat split. Qed.

(** Run ids of two creations within the same second. *)
Example created_ids_same_second :
  created_ids (responses default_config
                 [(env_ok, CreateRun sample_request); (env_ok, CreateRun sample_request)])
  = ["run-1-20240101-000000"; "run-2-20240101-000000"].
Proof. reflexivity. Qed.


(** * Further properties of the handlers *)

(** ** Lookups of an unknown run *)

Lemma scheduler_calls_app t1 t2 :
  scheduler_calls (t1 ++ t2) = scheduler_calls t1 ++ scheduler_calls t2.
Proof. apply omap_app. Qed.

Lemma sends_only_scheduler_calls t : sends_only t -> scheduler_calls t = [].
Proof.
  induction t as [|e t IH]; intros Hs; [reflexivity|].
  destruct (Hs e) as (ws & x & ok & ->); [left|].
  simpl. apply IH. intros e' He'. apply Hs. now right.
Qed.

Lemma add_log_scheduler_calls env run_id lvl msg st :
  scheduler_calls (trace_of (_add_log env run_id lvl msg st)) = [].
Proof.
  rewrite _add_log_eq. unfold trace_of. simpl.
  now rewrite (sends_only_scheduler_calls _ (broadcast_sends_only _ _ _ _ _)).
Qed.

(** X1: for a run id that is not in the registry, [get_run], [get_run_logs],
    [get_run_metrics] and [cancel_run] all fail with status code 404 ("Run
    not found"); the store is left as it was and nothing leaves the process,
    whatever lists [logs] and [metrics] hold under that id. *)
Theorem unknown_run_is_not_found cfg env st run_id :
  runs st !! run_id = None ->
  get_run run_id st = (inl (HTTPException 404 "Run not found"), st, []) /\
  get_run_logs run_id st = (inl (HTTPException 404 "Run not found"), st, []) /\
  get_run_metrics run_id st = (inl (HTTPException 404 "Run not found"), st, []) /\
  cancel_run cfg env run_id st = (inl (HTTPException 404 "Run not found"), st, []).
Proof.
  intros H. unfold get_run, get_run_logs, get_run_metrics, cancel_run, bind, get_store, raise.
  simpl. now rewrite H.
Qed.

Lemma unknown_run_is_not_found_witness :
  cancel_run default_config env_ok "run-7-20240101-000000" completed_store
  = (inl (HTTPException 404 "Run not found"), completed_store, []).
Proof.
  refine (proj2 (proj2 (proj2 (unknown_run_is_not_found default_config env_ok completed_store
                                 "run-7-20240101-000000" _)))).
  vm_compute. reflexivity.
Defined.

(** ** Cancellation of a live run *)

(** X2: in a store reached by serving requests, cancelling a run that is
    Pending or Running, with the scheduler accepting the deletion, returns
    "Run cancelled successfully", asks the scheduler once, for the deletion of
    job sim-run-<id> in the configured namespace, sets the run's status to
    Cancelled without touching its other fields, appends exactly one Info
    entry "Run cancelled by user" to its log list, and leaves every other run
    and log list alone. *)
Theorem cancel_of_live_run cfg rqs env run_id run :
  runs (final_store cfg rqs) !! run_id = Some run ->
  cancellable (status run) = true ->
  delete_namespaced_job env ("sim-run-" +:+ run_id) (NAMESPACE cfg) = None ->
  exists entry,
    result_of (cancel_run cfg env run_id (final_store cfg rqs))
    = inr "Run cancelled successfully" /\
    scheduler_calls (trace_of (cancel_run cfg env run_id (final_store cfg rqs)))
    = [EvDeleteJob ("sim-run-" +:+ run_id) (NAMESPACE cfg)] /\
    runs (store_of (cancel_run cfg env run_id (final_store cfg rqs))) !! run_id
    = Some (with_status CANCELLED run) /\
    level entry = INFO /\ message entry = "Run cancelled by user" /\
    runId entry = run_id /\ log_id entry = log_counter (final_store cfg rqs) /\
    log_of (store_of (cancel_run cfg env run_id (final_store cfg rqs))) run_id
    = log_of (final_store cfg rqs) run_id ++ [entry] /\
    appended (trace_of (cancel_run cfg env run_id (final_store cfg rqs))) = [entry] /\
    (forall k, k <> run_id ->
       runs (store_of (cancel_run cfg env run_id (final_store cfg rqs))) !! k
       = runs (final_store cfg rqs) !! k /\
       log_of (store_of (cancel_run cfg env run_id (final_store cfg rqs))) k
       = log_of (final_store cfg rqs) k).
Proof.
  intros Hrun Hc Hdel.
  assert (id run = run_id) as Hid.
  { eapply inv_ids; [apply reachable_inv | exact Hrun]. }
  exists (log_entry_at env (status_set run CANCELLED (final_store cfg rqs)) run_id INFO
            "Run cancelled by user").
  rewrite (cancel_run_succeeds cfg env run_id run _ Hrun Hc Hdel).
  rewrite result_of_mk, store_of_mk, trace_of_mk.
  rewrite scheduler_calls_app, add_log_scheduler_calls, appended_app, add_log_appended.
  rewrite add_log_runs, !add_log_log_of.
  repeat split.
  - simpl. now rewrite Hid, lookup_insert_eq.
  - rewrite filter_cons_True, filter_nil by reflexivity. reflexivity.
  - simpl. rewrite Hid. now rewrite lookup_insert_ne by congruence.
  - rewrite add_log_log_of.
    rewrite filter_cons_False, filter_nil, app_nil_r by (simpl; congruence). reflexivity.
Qed.

Lemma cancel_of_live_run_witness :
  runs (store_of (cancel_run default_config env_ok sample_id
                    (final_store default_config [(env_ok, CreateRun sample_request)])))
    !! sample_id
  = Some (with_status CANCELLED (with_status RUNNING (new_run env_ok sample_id sample_request))).
Proof.
  destruct (cancel_of_live_run default_config [(env_ok, CreateRun sample_request)] env_ok
              sample_id (with_status RUNNING (new_run env_ok sample_id sample_request)))
    as (entry & _ & _ & H & _).
  - vm_compute. reflexivity.
  - vm_compute. reflexivity.
  - vm_compute. reflexivity.
  - exact H.
Defined.

(** X3: when the scheduler refuses the deletion, [cancel_run] of a Pending
    or Running run fails with status code 500 ("Failed to cancel run") after
    that one call to the scheduler; the store is unchanged, so the run keeps
    its status, nothing is logged, and the request can be made again. *)
Theorem cancel_refused_by_scheduler cfg env st run_id run e :
  runs st !! run_id = Some run ->
  cancellable (status run) = true ->
  delete_namespaced_job env ("sim-run-" +:+ run_id) (NAMESPACE cfg) = Some e ->
  result_of (cancel_run cfg env run_id st) = inl (HTTPException 500 "Failed to cancel run") /\
  store_of (cancel_run cfg env run_id st) = st /\
  scheduler_calls (trace_of (cancel_run cfg env run_id st))
  = [EvDeleteJob ("sim-run-" +:+ run_id) (NAMESPACE cfg)] /\
  appended (trace_of (cancel_run cfg env run_id st)) = [] /\
  status_writes (trace_of (cancel_run cfg env run_id st)) = [].
Proof.
  intros Hrun Hc Hdel.
  rewrite (cancel_run_delete_fails cfg env run_id run st e Hrun Hc Hdel).
  now rewrite result_of_mk, store_of_mk, trace_of_mk.
Qed.

Lemma cancel_refused_by_scheduler_witness :
  store_of (cancel_run default_config env_k8s_down sample_id
              (final_store default_config [(env_ok, CreateRun sample_request)]))
  = final_store default_config [(env_ok, CreateRun sample_request)].
Proof.
  refine (proj1 (proj2 (cancel_refused_by_scheduler default_config env_k8s_down
    (final_store default_config [(env_ok, CreateRun sample_request)]) sample_id
    (with_status RUNNING (new_run env_ok sample_id sample_request))
    (mk_ApiException "(403) Forbidden") _ _ _))); vm_compute; reflexivity.
Defined.

(** ** The job template, as the scheduler reads it *)

(** X4: whatever the configuration, the run and the deadline, the template
    has the four containers unitree-sim, monty, glue and artifact-uploader, in
    that order and under distinct names; it declares the volumes ckpt,
    artifacts and glue, and every volume that a container mounts is one of
    these. *)
Theorem job_template_volumes_declared cfg run d :
  container_names (_prepare_job_template cfg run d)
  = ["unitree-sim"; "monty"; "glue"; "artifact-uploader"] /\
  NoDup (container_names (_prepare_job_template cfg run d)) /\
  volume_names (_prepare_job_template cfg run d) = ["ckpt"; "artifacts"; "glue"] /\
  (forall m, m ∈ mount_names (_prepare_job_template cfg run d) ->
             m ∈ volume_names (_prepare_job_template cfg run d)).
Proof.
  split; [reflexivity|]. split.
  - change (NoDup ["unitree-sim"; "monty"; "glue"; "artifact-uploader"]).
    apply (bool_decide_unpack _). vm_compute. exact I.
  - split; [reflexivity|].
    change (forall m, m ∈ ["ckpt"; "artifacts"; "glue"; "ckpt"; "artifacts"; "glue";
                           "ckpt"; "artifacts"; "glue"; "ckpt"; "artifacts"]
                      -> m ∈ ["ckpt"; "artifacts"; "glue"]).
    intros m Hm%list_elem_of_In. apply list_elem_of_In. simpl in *. tauto.
Qed.

(** X5: the job that a successful [create_run] submits and the job that a
    later [cancel_run] of the run it returned asks the scheduler to delete
    are one and the same: same name, sim-run-<id>, same namespace. *)
Theorem cancel_deletes_the_submitted_job cfg env env' request st :
  upload_answer cfg env st request = None ->
  submission_answer cfg env st request = None ->
  exists job n ns,
    scheduler_calls (trace_of (create_run cfg env request st)) = [EvCreateJob ns job] /\
    job_name job = Some n /\ job_namespace job = Some ns /\
    n = "sim-run-" +:+ next_run_id env st /\
    scheduler_calls
      (trace_of (cancel_run cfg env' (next_run_id env st)
                   (store_of (create_run cfg env request st))))
    = [EvDeleteJob n ns].
Proof.
  intros Hup Hsub.
  exists (_prepare_job_template cfg (new_run env (next_run_id env st) request)
            (activeDeadlineSeconds request)).
  exists ("sim-run-" +:+ next_run_id env st), (NAMESPACE cfg).
  rewrite (create_run_succeeds cfg env request st Hup Hsub).
  rewrite store_of_mk, trace_of_mk.
  rewrite !scheduler_calls_app, !add_log_scheduler_calls.
  repeat split.
  match goal with
  | |- scheduler_calls (trace_of (cancel_run _ _ _ ?s)) = _ =>
      assert (runs s !! next_run_id env st
              = Some (with_status RUNNING (new_run env (next_run_id env st) request))) as Hrun
  end.
  { rewrite !add_log_runs. simpl. now rewrite lookup_insert_eq. }
  destruct (delete_namespaced_job env' ("sim-run-" +:+ next_run_id env st) (NAMESPACE cfg))
    as [e|] eqn:Hdel.
  - now rewrite (cancel_run_delete_fails cfg env' _ _ _ e Hrun eq_refl Hdel), trace_of_mk.
  - rewrite (cancel_run_succeeds cfg env' _ _ _ Hrun eq_refl Hdel), trace_of_mk.
    now rewrite scheduler_calls_app, add_log_scheduler_calls.
Qed.

Lemma cancel_deletes_the_submitted_job_witness :
  exists job n ns,
    scheduler_calls (trace_of (create_run default_config env_ok sample_request initial_store))
    = [EvCreateJob ns job] /\
    scheduler_calls
      (trace_of (cancel_run default_config env_ok (next_run_id env_ok initial_store)
                   (store_of (create_run default_config env_ok sample_request initial_store))))
    = [EvDeleteJob n ns].
Proof.
  destruct (cancel_deletes_the_submitted_job default_config env_ok env_ok sample_request
              initial_store) as (job & n & ns & H1 & _ & _ & _ & H2).
  - vm_compute. reflexivity.
  - vm_compute. reflexivity.
  - exists job, n, ns. split; assumption.
Defined.

(** ** Broadcasts *)

Lemma set_active_connections_same st :
  set_active_connections (fun _ => active_connections st) st = st.
Proof. now destruct st. Qed.

(** X6: when no send raises, [_broadcast_log] sends the entry to every
    connection of [active_connections], once each and in the order of the
    list, and leaves the store, the list of connections included, as it was. *)
Theorem broadcast_reaches_all_when_no_send_fails env entry st :
  (forall c, c ∈ active_connections st -> send_text env c entry = true) ->
  _broadcast_log env entry st
  = (inr tt, st, (fun c => EvSendText c entry true) <$> active_connections st) /\
  deliveries (trace_of (_broadcast_log env entry st))
  = (fun c => (c, entry)) <$> active_connections st.
Proof.
  intros Hok. unfold _broadcast_log. cbn zeta.
  rewrite (broadcast_loop_healthy env entry _ 0 _ Hok) by lia.
  cbn [fst snd]. rewrite set_active_connections_same, drop_0. split; [reflexivity|].
  rewrite trace_of_mk. clear Hok.
  induction (active_connections st) as [|c l IH]; [reflexivity|].
  simpl. f_equal. exact IH.
Qed.

Lemma broadcast_reaches_all_when_no_send_fails_witness :
  deliveries (trace_of (_broadcast_log env_ok sample_entry
                          (final_store default_config two_observers)))
  = (fun c => (c, sample_entry)) <$> active_connections (final_store default_config two_observers).
Proof.
  refine (proj2 (broadcast_reaches_all_when_no_send_fails env_ok sample_entry
                   (final_store default_config two_observers) _)).
  intros c _. reflexivity.
Defined.

Lemma remove_first_middle c pre rest :
  c ∉ pre -> remove_first c (pre ++ c :: rest) = pre ++ rest.
Proof.
  induction pre as [|y pre IH]; intros Hc; simpl.
  - now rewrite Nat.eqb_refl.
  - apply not_elem_of_cons in Hc as [Hne Hc].
    destruct (Nat.eqb_spec c y); [congruence|]. now rewrite IH.
Qed.

Lemma remove_first_absent c l : c ∉ l -> remove_first c l = l.
Proof.
  induction l as [|y l IH]; intros Hc; simpl; [reflexivity|].
  apply not_elem_of_cons in Hc as [Hne Hc].
  destruct (Nat.eqb_spec c y); [congruence|]. now rewrite IH.
Qed.

Lemma remove_first_sublist c l : remove_first c l `sublist_of` l.
Proof.
  induction l as [|y l IH]; simpl; [constructor|].
  destruct (Nat.eqb c y); [now apply sublist_cons | now apply sublist_skip].
Qed.

Lemma remove_first_other c x l : x ∈ l -> x <> c -> x ∈ remove_first c l.
Proof.
  induction l as [|y l IH]; intros Hx Hne; simpl; [exact Hx|].
  apply elem_of_cons in Hx as [->|Hx].
  - destruct (Nat.eqb_spec c y); [congruence | left].
  - destruct (Nat.eqb c y); [exact Hx | right; now apply IH].
Qed.

Lemma NoDup_middle_remove (c : WebSocket) pre rest :
  NoDup (pre ++ c :: rest) -> NoDup (pre ++ rest) /\ (c ∉ pre) /\ (c ∉ rest).
Proof.
  intros Hnd. apply NoDup_app in Hnd as (Hpre & Hdisj & Hrest).
  apply NoDup_cons in Hrest as [Hc Hrest]. split; [|split].
  - apply NoDup_app. split; [assumption|]. split; [|assumption].
    intros x Hx Hx'. apply (Hdisj x Hx). now right.
  - intros Hin. apply (Hdisj c Hin). left.
  - exact Hc.
Qed.

(** On distinct connections the index-driven loop, started behind [pre],
    does to the rest of the list what [sweep] does. *)
Lemma broadcast_loop_sweep env entry fuel :
  forall pre rest,
    NoDup (pre ++ rest) -> length rest <= fuel ->
    broadcast_loop env entry fuel (length pre) (pre ++ rest)
    = (pre ++ fst (sweep env entry rest), snd (sweep env entry rest)).
Proof.
  induction fuel as [|fuel IH]; intros pre rest Hnd Hlen.
  - destruct rest; [|simpl in Hlen; lia]. reflexivity.
  - destruct rest as [|c rest].
    + simpl. rewrite app_nil_r, lookup_ge_None_2 by lia. reflexivity.
    + cbn [broadcast_loop]. rewrite list_lookup_middle by reflexivity.
      cbn [sweep]. destruct (send_text env c entry).
      * replace (pre ++ c :: rest) with ((pre ++ [c]) ++ rest) in * by (now rewrite <- app_assoc).
        replace (S (length pre)) with (length (pre ++ [c])) by (rewrite length_app; simpl; lia).
        rewrite IH by (assumption || (simpl in Hlen; lia)).
        cbn [fst snd]. now rewrite <- app_assoc.
      * destruct (NoDup_middle_remove c pre rest Hnd) as (Hnd' & Hpre & Hrest).
        rewrite remove_first_middle by assumption.
        destruct rest as [|x rest].
        { rewrite app_nil_r. destruct fuel; simpl.
          - now rewrite app_nil_r.
          - rewrite lookup_ge_None_2 by lia. now rewrite app_nil_r. }
        replace (pre ++ x :: rest) with ((pre ++ [x]) ++ rest) in * by (now rewrite <- app_assoc).
        replace (S (length pre)) with (length (pre ++ [x])) by (rewrite length_app; simpl; lia).
        rewrite IH by (assumption || (simpl in Hlen; lia)).
        cbn [fst snd]. now rewrite <- app_assoc.
Qed.

(** X7: on a list of distinct connections [_broadcast_log] does what
    [sweep] describes: it tries the connections in order, drops a connection
    whose send raises, and then passes over the connection that follows it,
    which stays connected without having been sent the entry. *)
Theorem broadcast_skips_after_each_failure env entry st :
  NoDup (active_connections st) ->
  _broadcast_log env entry st
  = (inr tt,
     set_active_connections (fun _ => fst (sweep env entry (active_connections st))) st,
     snd (sweep env entry (active_connections st))).
Proof.
  intros Hnd. unfold _broadcast_log. cbn zeta.
  now rewrite (broadcast_loop_sweep env entry _ [] (active_connections st) Hnd).
Qed.

Lemma broadcast_skips_after_each_failure_witness :
  active_connections (store_of (_broadcast_log env_peer1_gone sample_entry
                                  (final_store default_config two_observers)))
  = fst (sweep env_peer1_gone sample_entry [1; 2]).
Proof.
  rewrite (broadcast_skips_after_each_failure env_peer1_gone sample_entry
             (final_store default_config two_observers)).
  - reflexivity.
  - apply (bool_decide_unpack _). vm_compute. exact I.
Defined.

Lemma broadcast_loop_keeps env entry fuel :
  forall i conns,
    fst (broadcast_loop env entry fuel i conns) `sublist_of` conns /\
    (forall c, c ∈ conns -> c ∉ fst (broadcast_loop env entry fuel i conns) ->
               send_text env c entry = false).
Proof.
  induction fuel as [|fuel IH]; intros i conns; simpl.
  - split; [reflexivity | tauto].
  - destruct (conns !! i) as [x|] eqn:Hx; [|split; [reflexivity | simpl; tauto]].
    destruct (send_text env x entry) eqn:Hsend.
    + destruct (IH (S i) conns) as [Hsub Hkeep].
      destruct (broadcast_loop env entry fuel (S i) conns) as [cs t]. simpl in *.
      split; assumption.
    + destruct (IH (S i) (remove_first x conns)) as [Hsub Hkeep].
      destruct (broadcast_loop env entry fuel (S i) (remove_first x conns)) as [cs t].
      simpl in *. split.
      * etrans; [exact Hsub | apply remove_first_sublist].
      * intros c Hc Hout. destruct (decide (c = x)) as [->|Hne]; [exact Hsend|].
        apply Hkeep; [|exact Hout]. now apply remove_first_other.
Qed.

(** X8: whatever the list of connections, a broadcast adds no connection and
    keeps the order of those that stay; every connection that it drops is one
    to which the send raised. *)
Theorem broadcast_drops_only_failed_connections env entry st :
  active_connections (store_of (_broadcast_log env entry st))
    `sublist_of` active_connections st /\
  (forall c,
     c ∈ active_connections st ->
     c ∉ active_connections (store_of (_broadcast_log env entry st)) ->
     send_text env c entry = false).
Proof.
  unfold _broadcast_log, store_of. simpl.
  apply (broadcast_loop_keeps env entry (length (active_connections st)) 0
           (active_connections st)).
Qed.

(** What [sweep] leaves and what it tries, for lists of bounded length. *)
Lemma sweep_facts env entry n :
  forall l, length l <= n ->
    fst (sweep env entry l) `sublist_of` l /\
    tried (snd (sweep env entry l)) `sublist_of` l /\
    (NoDup l -> forall c x, EvSendText c x false ∈ snd (sweep env entry l) ->
                            c ∉ fst (sweep env entry l)).
Proof.
  induction n as [|n IH]; intros l Hlen.
  - destruct l; [|simpl in Hlen; lia]. simpl.
    split; [constructor|]. split; [constructor|]. intros _ c x H. now apply elem_of_nil in H.
  - destruct l as [|c0 l]; simpl.
    { split; [constructor|]. split; [constructor|]. intros _ c x H. now apply elem_of_nil in H. }
    destruct (send_text env c0 entry).
    + destruct (IH l) as (Hk & Ht & Hf); [simpl in Hlen; lia|]. simpl.
      split; [now apply sublist_skip|]. split; [now apply sublist_skip|].
      intros [Hc0 Hnd]%NoDup_cons c x [Heq|Hin]%elem_of_cons; [discriminate|].
      intros [->|Hin']%elem_of_cons.
      * apply Hc0. eapply elem_of_sublist; [|exact Ht].
        apply (list_elem_of_omap _ _ c0). exists (EvSendText c0 x false). now split.
      * now apply (Hf Hnd c x).
    + destruct l as [|x1 l]; simpl.
      { split; [apply sublist_nil_l|]. split; [now apply sublist_skip|].
        intros _ c x _ H. now apply elem_of_nil in H. }
      destruct (IH l) as (Hk & Ht & Hf); [simpl in Hlen; lia|].
      split; [now apply sublist_cons, sublist_skip|].
      split; [now apply sublist_skip, sublist_cons|].
      intros [Hc0 [Hx1 Hnd]%NoDup_cons]%NoDup_cons c x [Heq|Hin]%elem_of_cons.
      * injection Heq as -> _. intros Hin. apply Hc0.
        apply elem_of_cons in Hin as [->|Hin]; [left|].
        right. eapply elem_of_sublist; eauto.
      * intros [->|Hin']%elem_of_cons.
        -- apply Hx1. eapply elem_of_sublist; [|exact Ht].
           apply (list_elem_of_omap _ _ x1). exists (EvSendText x1 x false). now split.
        -- now apply (Hf Hnd c x).
Qed.

(** X9: on a list of distinct connections, a broadcast tries each connection
    at most once, in the order of the list, and every connection to which the
    send raised is gone from [active_connections] afterwards. *)
Theorem broadcast_tries_once_and_drops_failed env entry st :
  NoDup (active_connections st) ->
  tried (trace_of (_broadcast_log env entry st)) `sublist_of` active_connections st /\
  NoDup (tried (trace_of (_broadcast_log env entry st))) /\
  (forall c x, EvSendText c x false ∈ trace_of (_broadcast_log env entry st) ->
               c ∉ active_connections (store_of (_broadcast_log env entry st))).
Proof.
  intros Hnd. rewrite (broadcast_skips_after_each_failure env entry st Hnd).
  rewrite trace_of_mk, store_of_mk. simpl.
  destruct (sweep_facts env entry _ (active_connections st) (le_n _)) as (_ & Ht & Hf).
  split; [exact Ht|]. split; [eapply sublist_NoDup; eauto | now apply Hf].
Qed.

Lemma broadcast_tries_once_and_drops_failed_witness :
  1 ∉ active_connections (store_of (_broadcast_log env_peer1_gone sample_entry
                                      (final_store default_config two_observers))).
Proof.
  refine (proj2 (proj2 (broadcast_tries_once_and_drops_failed env_peer1_gone sample_entry
                          (final_store default_config two_observers) _)) 1 sample_entry _).
  - apply (bool_decide_unpack _). vm_compute. exact I.
  - vm_compute. left.
Defined.

(** ** Connections *)

(** X10: a connection that is not yet in [active_connections] is appended
    by its connect and taken out again by its disconnect, which restores the
    store; and the disconnect of a connection that is not in the list, as
    after a broadcast has dropped it, changes nothing. *)
Theorem connect_then_disconnect_restores st ws :
  ws ∉ active_connections st ->
  active_connections (store_of (websocket_connect ws st)) = active_connections st ++ [ws] /\
  store_of (websocket_disconnect ws (store_of (websocket_connect ws st))) = st /\
  store_of (websocket_disconnect ws st) = st.
Proof.
  intros Hws. destruct st as [rs ls ms conns n]. simpl in *.
  unfold websocket_connect, websocket_disconnect, modify, store_of, set_active_connections.
  simpl. split; [reflexivity|]. split; f_equal.
  - replace (conns ++ [ws]) with (conns ++ ws :: []) by reflexivity.
    now rewrite remove_first_middle, app_nil_r.
  - now apply remove_first_absent.
Qed.

Lemma connect_then_disconnect_restores_witness :
  store_of (websocket_disconnect 3 (store_of (websocket_connect 3
              (final_store default_config two_observers))))
  = final_store default_config two_observers.
Proof.
  refine (proj1 (proj2 (connect_then_disconnect_restores
                          (final_store default_config two_observers) 3 _))).
  vm_compute. intros H. inversion H as [|? ? ? H']. inversion H' as [|? ? ? H'']. inversion H''.
Defined.

(** ** Registries that stay aligned *)

Lemma add_log_metrics env run_id lvl msg st :
  metrics (store_of (_add_log env run_id lvl msg st)) = metrics st.
Proof. now rewrite _add_log_eq. Qed.

Lemma add_log_logs_some env run_id lvl msg st k :
  is_Some (logs st !! k) \/ k = run_id ->
  is_Some (logs (store_of (_add_log env run_id lvl msg st)) !! k).
Proof.
  rewrite _add_log_eq. unfold store_of. simpl.
  destruct (decide (run_id = k)) as [->|Hne].
  - rewrite lookup_insert_eq. eauto.
  - rewrite lookup_insert_ne by assumption. intros [H|H]; [exact H | congruence].
Qed.

Lemma log_of_status_set run s st k : log_of (status_set run s st) k = log_of st k.
Proof. reflexivity. Qed.

Lemma log_of_registered env request st k :
  log_of (registered env st request) k
  = if decide (next_run_id env st = k) then [] else log_of st k.
Proof.
  unfold log_of. simpl. destruct (decide (next_run_id env st = k)) as [->|Hne].
  - now rewrite lookup_insert_eq.
  - now rewrite lookup_insert_ne.
Qed.

Lemma add_log_levels env run_id lvl msg st k :
  level <$> log_of (store_of (_add_log env run_id lvl msg st)) k
  = (level <$> log_of st k) ++ (if decide (run_id = k) then [lvl] else []).
Proof.
  rewrite add_log_log_of, fmap_app. f_equal.
  destruct (decide (run_id = k)) as [->|Hne].
  - now rewrite filter_cons_True by reflexivity.
  - now rewrite filter_cons_False by (simpl; congruence).
Qed.

Section Registries.

Variable cfg : Config.

Lemma handle_registry_inv env rq st la :
  store_inv st la -> registry_inv st -> registry_inv (store_of (handle cfg env rq st)).
Proof.
  intros Hinv [Hl Hm Hv Hf]. destruct rq as [request|run_id|ws|ws].
  - rewrite handle_create.
    pose proof (next_run_id_fresh env st la Hinv) as Hfresh.
    set (nid := next_run_id env st) in *.
    assert (forall k, nid <> k -> level <$> log_of (registered env st request) k
                                  = level <$> log_of st k) as Hother.
    { intros k Hne. rewrite log_of_registered. fold nid. now destruct (decide (nid = k)). }
    assert (level <$> log_of (registered env st request) nid = []) as Hnew.
    { rewrite log_of_registered. fold nid. now destruct (decide (nid = nid)). }
    destruct (upload_answer cfg env st request) as [e|] eqn:Hup.
    { rewrite (create_run_upload_fails cfg env request st e Hup), store_of_mk.
      split; simpl; fold nid; intros k.
      - destruct (decide (nid = k)) as [<-|Hne].
        + rewrite !lookup_insert_eq. eauto.
        + rewrite !lookup_insert_ne by assumption. apply Hl.
      - destruct (decide (nid = k)) as [<-|Hne].
        + now rewrite !lookup_insert_eq.
        + rewrite !lookup_insert_ne by assumption. apply Hm.
      - intros r. destruct (decide (nid = k)) as [<-|Hne].
        + rewrite lookup_insert_eq. intros [= <-]. now rewrite Hnew.
        + rewrite lookup_insert_ne by assumption. rewrite (Hother k Hne). apply Hv.
      - intros r. destruct (decide (nid = k)) as [<-|Hne].
        + rewrite lookup_insert_eq. intros [= <-]. simpl. eauto.
        + rewrite lookup_insert_ne by assumption. apply Hf. }
    destruct (submission_answer cfg env st request) as [[e|text]|] eqn:Hsub.
    2:{ rewrite (create_run_submission_raises cfg env request st text Hup Hsub), store_of_mk.
      split; simpl; fold nid; intros k.
      - destruct (decide (nid = k)) as [<-|Hne].
        + rewrite !lookup_insert_eq. eauto.
        + rewrite !lookup_insert_ne by assumption. apply Hl.
      - destruct (decide (nid = k)) as [<-|Hne].
        + now rewrite !lookup_insert_eq.
        + rewrite !lookup_insert_ne by assumption. apply Hm.
      - intros r. destruct (decide (nid = k)) as [<-|Hne].
        + rewrite lookup_insert_eq. intros [= <-]. now rewrite Hnew.
        + rewrite lookup_insert_ne by assumption. rewrite (Hother k Hne). apply Hv.
      - intros r. destruct (decide (nid = k)) as [<-|Hne].
        + rewrite lookup_insert_eq. intros [= <-]. simpl. eauto.
        + rewrite lookup_insert_ne by assumption. apply Hf. }
    + rewrite (create_run_submission_fails cfg env request st e Hup Hsub), store_of_mk.
      split; intros k.
      * rewrite add_log_runs. intros Hk. apply add_log_logs_some.
        simpl in *. fold nid in Hk |- *. destruct (decide (nid = k)) as [<-|Hne]; [now right|].
        left. rewrite !lookup_insert_ne in * by assumption. now apply Hl.
      * rewrite add_log_metrics, add_log_runs. simpl. fold nid.
        destruct (decide (nid = k)) as [<-|Hne].
        -- now rewrite !lookup_insert_eq.
        -- rewrite !lookup_insert_ne by assumption. apply Hm.
      * intros r. rewrite add_log_runs, add_log_levels, log_of_status_set. simpl. fold nid.
        destruct (decide (nid = k)) as [<-|Hne].
        -- rewrite lookup_insert_eq. intros [= <-]. now rewrite Hnew.
        -- rewrite !lookup_insert_ne by assumption. rewrite (Hother k Hne), app_nil_r.
           apply Hv.
      * intros r. rewrite add_log_runs. simpl. fold nid.
        destruct (decide (nid = k)) as [<-|Hne].
        -- rewrite lookup_insert_eq. intros [= <-]. simpl. eauto.
        -- rewrite !lookup_insert_ne by assumption. apply Hf.
    + rewrite (create_run_succeeds cfg env request st Hup Hsub), store_of_mk.
      split; intros k.
      * rewrite !add_log_runs. intros Hk. apply add_log_logs_some.
        simpl in Hk. fold nid in Hk |- *.
        destruct (decide (nid = k)) as [<-|Hne]; [now right|].
        left. apply add_log_logs_some. left. simpl. fold nid.
        rewrite !lookup_insert_ne in * by assumption. now apply Hl.
      * rewrite !add_log_metrics, !add_log_runs. simpl. fold nid.
        destruct (decide (nid = k)) as [<-|Hne].
        -- now rewrite !lookup_insert_eq.
        -- rewrite !lookup_insert_ne by assumption. apply Hm.
      * intros r. rewrite !add_log_runs, !add_log_levels, log_of_status_set. simpl. fold nid.
        destruct (decide (nid = k)) as [<-|Hne].
        -- rewrite lookup_insert_eq. intros [= <-]. now rewrite Hnew.
        -- rewrite !lookup_insert_ne by assumption. rewrite (Hother k Hne), !app_nil_r.
           apply Hv.
      * intros r. rewrite !add_log_runs. simpl. fold nid.
        destruct (decide (nid = k)) as [<-|Hne].
        -- rewrite lookup_insert_eq. intros [= <-]. simpl. eauto.
        -- rewrite !lookup_insert_ne by assumption. apply Hf.
  - rewrite handle_cancel.
    destruct (runs st !! run_id) as [run|] eqn:Hrun.
    2:{ rewrite (cancel_run_not_found cfg env run_id st Hrun), store_of_mk. now split. }
    destruct (cancellable (status run)) eqn:Hc.
    2:{ rewrite (cancel_run_refused cfg env run_id run st Hrun Hc), store_of_mk. now split. }
    destruct (delete_namespaced_job env ("sim-run-" +:+ run_id) (NAMESPACE cfg))
      as [e|] eqn:Hdel.
    { rewrite (cancel_run_delete_fails cfg env run_id run st e Hrun Hc Hdel), store_of_mk.
      now split. }
    rewrite (cancel_run_succeeds cfg env run_id run st Hrun Hc Hdel), store_of_mk.
    assert (id run = run_id) as Hid by (eapply inv_ids; eauto).
    split; intros k.
    + rewrite add_log_runs. intros Hk. apply add_log_logs_some.
      simpl in Hk. rewrite Hid in Hk.
      destruct (decide (run_id = k)) as [<-|Hne]; [now right|].
      left. simpl. rewrite lookup_insert_ne in Hk by assumption. now apply Hl.
    + rewrite add_log_metrics, add_log_runs. simpl. rewrite Hid.
      destruct (decide (run_id = k)) as [<-|Hne].
      * rewrite lookup_insert_eq. rewrite Hm, Hrun. reflexivity.
      * rewrite lookup_insert_ne by assumption. apply Hm.
    + intros r. rewrite add_log_runs, add_log_levels, log_of_status_set. simpl. rewrite Hid.
      destruct (decide (run_id = k)) as [<-|Hne].
      * rewrite lookup_insert_eq. intros [= <-]. simpl.
        pose proof (Hv run_id run Hrun) as Hold.
        destruct (status run); simpl in Hc, Hold; try discriminate;
          apply bool_decide_eq_true in Hold; rewrite Hold; reflexivity.
      * rewrite lookup_insert_ne by assumption. rewrite app_nil_r. apply Hv.
    + intros r. rewrite add_log_runs. simpl. rewrite Hid.
      destruct (decide (run_id = k)) as [<-|Hne].
      * rewrite lookup_insert_eq. intros [= <-]. simpl. now apply (Hf run_id).
      * rewrite lookup_insert_ne by assumption. apply Hf.
  - now split.
  - now split.
Qed.

Lemma serve_registry_inv rqs :
  forall st la, store_inv st la -> registry_inv st ->
                registry_inv (fst (fst (serve cfg rqs st))).
Proof.
  induction rqs as [|[env rq] rqs IH]; intros st la Hinv Hreg; [exact Hreg|].
  rewrite serve_cons. cbn zeta. cbn [fst snd].
  apply (IH _ (la ++ appended (trace_of (handle cfg env rq st)))).
  - now apply handle_inv.
  - now apply (handle_registry_inv env rq st la).
Qed.

Lemma reachable_registry_inv rqs : registry_inv (final_store cfg rqs).
Proof.
  apply (serve_registry_inv rqs initial_store [] store_inv_initial).
  split; simpl; intros k.
  - rewrite lookup_empty. intros [x Hx]. discriminate.
  - now rewrite !lookup_empty.
  - intros r. rewrite lookup_empty. discriminate.
  - intros r. rewrite lookup_empty. discriminate.
Qed.

End Registries.

(** X11: in every store reached by serving requests, the status of a run
    tells the levels of its log entries: none for Pending, two Info for
    Running, one Error for Failed, one or three Info for Cancelled. So a run
    is Pending exactly when its log is empty, and Failed exactly when its log
    holds an Error entry. *)
Theorem status_tells_log_levels cfg rqs k r :
  runs (final_store cfg rqs) !! k = Some r ->
  status_levels (status r) (level <$> log_of (final_store cfg rqs) k) = true /\
  (status r = PENDING <-> log_of (final_store cfg rqs) k = []) /\
  (status r = FAILED <-> ERROR ∈ level <$> log_of (final_store cfg rqs) k).
Proof.
  intros Hr. pose proof (reg_levels _ (reachable_registry_inv cfg rqs) k r Hr) as Hv.
  split; [exact Hv|].
  assert (forall lv, level <$> log_of (final_store cfg rqs) k = lv ->
            (log_of (final_store cfg rqs) k = [] <-> lv = []) /\
            (ERROR ∈ level <$> log_of (final_store cfg rqs) k <-> ERROR ∈ lv)) as Hlv.
  { intros lv <-. split; [|reflexivity]. split; [now intros -> | apply fmap_nil_inv]. }
  destruct (status r); simpl in Hv; try discriminate.
  - apply bool_decide_eq_true in Hv. destruct (Hlv _ Hv) as [-> ->].
    split; [tauto|]. split; [discriminate | intros H; inversion H].
  - apply bool_decide_eq_true in Hv. destruct (Hlv _ Hv) as [-> ->].
    split; [split; discriminate|]. split; [discriminate|].
    intros H%list_elem_of_In. simpl in H. intuition discriminate.
  - apply bool_decide_eq_true in Hv. destruct (Hlv _ Hv) as [-> ->].
    split; [split; discriminate|]. split; [intros _; left | reflexivity].
  - apply orb_true_iff in Hv as [Hv|Hv]; apply bool_decide_eq_true in Hv;
      destruct (Hlv _ Hv) as [-> ->];
      (split; [split; discriminate|]; split; [discriminate|]);
      intros H%list_elem_of_In; simpl in H; intuition discriminate.
Qed.

Lemma status_tells_log_levels_witness :
  status_levels RUNNING
    (level <$> log_of (final_store default_config [(env_ok, CreateRun sample_request)])
                 sample_id) = true.
Proof.
  refine (proj1 (status_tells_log_levels default_config [(env_ok, CreateRun sample_request)]
                   sample_id (with_status RUNNING (new_run env_ok sample_id sample_request)) _)).
  vm_compute. reflexivity.
Defined.

(** X12: in every store reached by serving requests, [runs], [logs] and
    [metrics] have the same keys: a run is registered exactly when it has a
    log list, and exactly when it has a metric list. *)
Theorem registries_have_the_same_keys cfg rqs k :
  (is_Some (runs (final_store cfg rqs) !! k) <-> is_Some (logs (final_store cfg rqs) !! k)) /\
  (is_Some (runs (final_store cfg rqs) !! k) <-> is_Some (metrics (final_store cfg rqs) !! k)).
Proof.
  pose proof (reachable_registry_inv cfg rqs) as [Hl Hm _ _].
  pose proof (reachable_inv cfg rqs) as Hinv.
  split; split.
  - apply Hl.
  - apply (inv_logs_dom _ _ Hinv).
  - intros [r Hr]. rewrite Hm, Hr. simpl. eauto.
  - rewrite Hm. intros [x Hx]. destruct (runs (final_store cfg rqs) !! k); [eauto | discriminate].
Qed.

(** X13: no handler completes a run, records an artifact, sets a
    checkpoint-out or adds a metric point: in every store reached by serving
    requests, a registered run is not Completed, has no artifacts and no
    checkpointOut, still carries its glue code, and [get_run_metrics] returns
    the empty list for it. *)
Theorem nothing_completes_or_fills_a_run cfg rqs k r :
  runs (final_store cfg rqs) !! k = Some r ->
  status r <> COMPLETED /\
  artifacts r = [] /\ checkpointOut r = None /\ is_Some (glueCode r) /\
  get_run_metrics k (final_store cfg rqs) = (inr [], final_store cfg rqs, []).
Proof.
  intros Hr. pose proof (reachable_registry_inv cfg rqs) as [_ Hm Hv Hf].
  destruct (Hf k r Hr) as (Ha & Hc & Hg).
  split; [|repeat split; try assumption].
  - intros Hs. specialize (Hv k r Hr). rewrite Hs in Hv. discriminate.
  - unfold get_run_metrics, bind, get_store, ret. simpl. rewrite Hr, Hm, Hr. reflexivity.
Qed.

Lemma nothing_completes_or_fills_a_run_witness :
  get_run_metrics sample_id (final_store default_config upload_fails_then_cancel)
  = (inr [], final_store default_config upload_fails_then_cancel, []).
Proof.
  refine (proj2 (proj2 (proj2 (proj2
    (nothing_completes_or_fills_a_run default_config upload_fails_then_cancel sample_id
       (with_status CANCELLED (new_run env_s3_down sample_id sample_request)) _))))).
  vm_compute. reflexivity.
Defined.

(** ** Log lists as the routes return them *)

Lemma log_ids_increase_and_logs_grow_aux cfg rqs :
  log_id <$> appended (full_trace cfg rqs) = seq 0 (log_counter (final_store cfg rqs)) /\
  StronglySorted lt (log_id <$> appended (full_trace cfg rqs)) /\
  (forall run_id,
     log_of (final_store cfg rqs) run_id
     = filter (fun e => runId e = run_id) (appended (full_trace cfg rqs))).
Proof.
  pose proof (reachable_inv cfg rqs) as Hinv.
  pose proof (inv_counter _ _ Hinv) as Hc.
  split; [exact Hc|]. split; [rewrite Hc; apply seq_strongly_sorted|].
  apply (inv_logs _ _ Hinv).
Qed.

Lemma strongly_sorted_filter (P : LogEntry -> Prop) `{!forall e, Decision (P e)} la :
  StronglySorted lt (log_id <$> la) -> StronglySorted lt (log_id <$> filter P la).
Proof.
  induction la as [|e la IH]; intros Hs; [constructor|].
  simpl in Hs. apply StronglySorted_inv in Hs as [Hs Hall].
  destruct (decide (P e)) as [Hp|Hp].
  - rewrite filter_cons_True by assumption. simpl. constructor; [now apply IH|].
    apply Forall_forall. intros x (y & -> & Hy%list_elem_of_filter)%list_elem_of_fmap.
    rewrite Forall_forall in Hall. apply Hall. apply list_elem_of_fmap. exists y. tauto.
  - rewrite filter_cons_False by assumption. now apply IH.
Qed.

(** X14: in every store reached by serving requests, [get_run_logs] of a
    registered run returns entries that all carry that run's id, whose
    sequence ids increase strictly along the list and lie below the log
    counter. *)
Theorem run_logs_belong_to_the_run cfg rqs k r :
  runs (final_store cfg rqs) !! k = Some r ->
  exists l,
    get_run_logs k (final_store cfg rqs) = (inr l, final_store cfg rqs, []) /\
    Forall (fun e => runId e = k) l /\
    StronglySorted lt (log_id <$> l) /\
    Forall (fun e => log_id e < log_counter (final_store cfg rqs)) l.
Proof.
  intros Hr. exists (log_of (final_store cfg rqs) k).
  pose proof (log_ids_increase_and_logs_grow_aux cfg rqs) as (Hc & Hs & Hl).
  split; [|rewrite Hl; split; [|split]].
  - unfold get_run_logs, bind, get_store, ret. simpl. now rewrite Hr.
  - apply Forall_forall. now intros e [He _]%list_elem_of_filter.
  - now apply strongly_sorted_filter.
  - apply Forall_forall. intros e [_ He]%list_elem_of_filter.
    assert (log_id e ∈ seq 0 (log_counter (final_store cfg rqs))) as Hin.
    { rewrite <- Hc. apply list_elem_of_fmap. now exists e. }
    apply elem_of_seq in Hin. lia.
Qed.

Lemma run_logs_belong_to_the_run_witness :
  exists l,
    get_run_logs sample_id (final_store default_config [(env_ok, CreateRun sample_request)])
    = (inr l, final_store default_config [(env_ok, CreateRun sample_request)], []) /\
    Forall (fun e => runId e = sample_id) l.
Proof.
  destruct (run_logs_belong_to_the_run default_config [(env_ok, CreateRun sample_request)]
              sample_id (with_status RUNNING (new_run env_ok sample_id sample_request)))
    as (l & H1 & H2 & _).
  - vm_compute. reflexivity.
  - exists l. split; assumption.
Defined.

(** ** Runs over time *)

Lemma serve_run_evolution cfg rqs :
  forall st la k r,
    store_inv st la -> runs st !! k = Some r ->
    runs (fst (fst (serve cfg rqs st))) !! k = Some r \/
    (cancellable (status r) = true /\
     runs (fst (fst (serve cfg rqs st))) !! k = Some (with_status CANCELLED r)).
Proof.
  induction rqs as [|[env rq] rqs IH]; intros st la k r Hinv Hr; [now left|].
  rewrite serve_cons. cbn zeta. cbn [fst snd].
  pose proof (handle_inv cfg env rq st la Hinv) as Hinv1.
  destruct (handle_run_step cfg env rq st la k r Hinv Hr) as [H1|[Hc H1]].
  - exact (IH _ _ k r Hinv1 H1).
  - right. split; [exact Hc|].
    destruct (IH _ _ k _ Hinv1 H1) as [H2|[Hc2 _]]; [exact H2 | discriminate].
Qed.

Lemma final_store_app cfg rqs rqs' :
  final_store cfg (rqs ++ rqs') = fst (fst (serve cfg rqs' (final_store cfg rqs))).
Proof. unfold final_store. now rewrite serve_app. Qed.

(** X15: a run, once registered, is never removed, and whatever requests
    follow, its record stays as it is or differs only by the status, moved to
    Cancelled from Pending or Running. A run that is Completed, Failed or
    Cancelled is therefore never changed again, and a run that sits in the
    registry as Pending never becomes Running or Failed. *)
Theorem registered_run_only_moves_to_cancelled cfg rqs rqs' k r :
  runs (final_store cfg rqs) !! k = Some r ->
  (runs (final_store cfg (rqs ++ rqs')) !! k = Some r \/
   (cancellable (status r) = true /\
    runs (final_store cfg (rqs ++ rqs')) !! k = Some (with_status CANCELLED r))) /\
  (terminal (status r) = true -> runs (final_store cfg (rqs ++ rqs')) !! k = Some r).
Proof.
  intros Hr. rewrite final_store_app.
  pose proof (serve_run_evolution cfg rqs' _ _ k r (reachable_inv cfg rqs) Hr) as H.
  split; [exact H|].
  intros Ht. destruct H as [H|[Hc _]]; [exact H|].
  apply terminal_not_cancellable in Ht. congruence.
Qed.

Lemma registered_run_only_moves_to_cancelled_witness :
  runs (final_store default_config
          ([(env_k8s_down, CreateRun sample_request)]
           ++ [(env_ok, CancelRun sample_id); (env_ok, CreateRun sample_request)]))
    !! sample_id
  = Some (with_status FAILED (new_run env_k8s_down sample_id sample_request)).
Proof.
  refine (proj2 (registered_run_only_moves_to_cancelled default_config
                   [(env_k8s_down, CreateRun sample_request)]
                   [(env_ok, CancelRun sample_id); (env_ok, CreateRun sample_request)]
                   sample_id (with_status FAILED (new_run env_k8s_down sample_id sample_request))
                   _) _).
  - vm_compute. reflexivity.
  - vm_compute. reflexivity.
Defined.

Lemma handle_size cfg env rq st la :
  store_inv st la ->
  size (runs (store_of (handle cfg env rq st)))
  = size (runs st) + match rq with CreateRun _ => 1 | _ => 0 end.
Proof.
  intros Hinv. destruct rq as [request|run_id|ws|ws].
  - rewrite handle_create.
    pose proof (next_run_id_fresh env st la Hinv) as Hfresh.
    destruct (upload_answer cfg env st request) as [e|] eqn:Hup.
    { rewrite (create_run_upload_fails cfg env request st e Hup), store_of_mk. simpl.
      rewrite map_size_insert_None by assumption. lia. }
    destruct (submission_answer cfg env st request) as [[e|text]|] eqn:Hsub.
    2:{ rewrite (create_run_submission_raises cfg env request st text Hup Hsub), store_of_mk. simpl.
      rewrite map_size_insert_None by assumption. lia. }
    + rewrite (create_run_submission_fails cfg env request st e Hup Hsub), store_of_mk.
      rewrite add_log_runs. simpl.
      rewrite map_size_insert_Some by (rewrite lookup_insert_eq; eauto).
      rewrite map_size_insert_None by assumption. lia.
    + rewrite (create_run_succeeds cfg env request st Hup Hsub), store_of_mk.
      rewrite !add_log_runs. simpl.
      rewrite map_size_insert_Some by (rewrite lookup_insert_eq; eauto).
      rewrite map_size_insert_None by assumption. lia.
  - rewrite handle_cancel.
    destruct (runs st !! run_id) as [run|] eqn:Hrun.
    2:{ rewrite (cancel_run_not_found cfg env run_id st Hrun), store_of_mk. lia. }
    destruct (cancellable (status run)) eqn:Hc.
    2:{ rewrite (cancel_run_refused cfg env run_id run st Hrun Hc), store_of_mk. lia. }
    destruct (delete_namespaced_job env ("sim-run-" +:+ run_id) (NAMESPACE cfg))
      as [e|] eqn:Hdel.
    { rewrite (cancel_run_delete_fails cfg env run_id run st e Hrun Hc Hdel), store_of_mk. lia. }
    rewrite (cancel_run_succeeds cfg env run_id run st Hrun Hc Hdel), store_of_mk.
    rewrite add_log_runs. simpl.
    assert (id run = run_id) as Hid by (eapply inv_ids; eauto).
    rewrite map_size_insert_Some by (rewrite Hid; eauto). lia.
  - simpl. lia.
  - simpl. lia.
Qed.

Lemma serve_size cfg rqs :
  forall st la,
    store_inv st la ->
    size (runs (fst (fst (serve cfg rqs st)))) = size (runs st) + count_creates rqs.
Proof.
  induction rqs as [|[env rq] rqs IH]; intros st la Hinv; [simpl; lia|].
  rewrite serve_cons. cbn zeta. cbn [fst snd].
  rewrite (IH _ _ (handle_inv cfg env rq st la Hinv)), (handle_size cfg env rq st la Hinv).
  destruct rq; simpl; lia.
Qed.

(** X16: every [create_run] request registers exactly one run, whether it
    returns or raises, and nothing else adds or removes one: after serving a
    sequence of requests, [get_runs] lists as many runs as the sequence has
    create requests, the listed runs are those of the registry, and the id
    that the next create will use carries that number plus one. *)
Theorem listed_runs_count_the_creates cfg rqs :
  exists l,
    get_runs (final_store cfg rqs) = (inr l, final_store cfg rqs, []) /\
    length l = count_creates rqs /\
    (forall r, r ∈ l <-> exists k, runs (final_store cfg rqs) !! k = Some r) /\
    (forall env, next_run_id env (final_store cfg rqs)
                 = run_key (count_creates rqs + 1) (strftime (now_run_id env))).
Proof.
  pose proof (serve_size cfg rqs initial_store [] store_inv_initial) as Hsize.
  change (size (runs (final_store cfg rqs)) = size (runs initial_store) + count_creates rqs)
    in Hsize.
  change (size (runs initial_store)) with (size (∅ : gmap string Run)) in Hsize.
  rewrite map_size_empty in Hsize. simpl in Hsize.
  exists ((map_to_list (runs (final_store cfg rqs))).*2).
  split; [reflexivity|]. split; [|split].
  - now rewrite length_fmap, length_map_to_list.
  - intros r. rewrite list_elem_of_fmap. split.
    + intros ([k r'] & -> & Hin). exists k. now apply elem_of_map_to_list in Hin.
    + intros [k Hk]. exists (k, r). split; [reflexivity | now apply elem_of_map_to_list].
  - intros env. unfold next_run_id, run_key. now rewrite Hsize.
Qed.

(** ** Outside calls of create_run *)

(** X17: whatever the store and the answers of the outside world,
    [create_run] first puts the glue code into the artifacts bucket under
    glue/<run-id>/run.py; it asks the scheduler for nothing when that upload
    raises, and otherwise submits exactly one job, the template of the new
    run with the deadline of the request, in the configured namespace. *)
Theorem create_run_outside_calls cfg env request st :
  (exists t,
     trace_of (create_run cfg env request st)
     = EvPutObject (S3_ARTIFACTS_BUCKET cfg)
         ("glue/" +:+ next_run_id env st +:+ "/run.py") (req_glueCode request) :: t) /\
  scheduler_calls (trace_of (create_run cfg env request st))
  = match upload_answer cfg env st request with
    | Some _ => []
    | None =>
        [EvCreateJob (NAMESPACE cfg)
           (_prepare_job_template cfg (new_run env (next_run_id env st) request)
              (activeDeadlineSeconds request))]
    end.
Proof.
  destruct (upload_answer cfg env st request) as [e|] eqn:Hup.
  { rewrite (create_run_upload_fails cfg env request st e Hup), trace_of_mk.
    split; [eexists; reflexivity | reflexivity]. }
  destruct (submission_answer cfg env st request) as [[e|text]|] eqn:Hsub.
  2:{ rewrite (create_run_submission_raises cfg env request st text Hup Hsub), trace_of_mk.
    split; [eexists; reflexivity | reflexivity]. }
  - rewrite (create_run_submission_fails cfg env request st e Hup Hsub), trace_of_mk.
    split; [eexists; reflexivity|].
    now rewrite scheduler_calls_app, add_log_scheduler_calls.
  - rewrite (create_run_succeeds cfg env request st Hup Hsub), trace_of_mk.
    split; [eexists; reflexivity|].
    now rewrite !scheduler_calls_app, !add_log_scheduler_calls.
Qed.
